(** * Conversation store, lifecycle manager, cost accountant and chat
      orchestrator of the chat application ([app.py])

    The development embeds the Python functions of [app.py] that own the
    conversation data: [calculate_conversation_cost], [chatbot_reply],
    [ensure_db_structure], [load_conversation_to_state],
    [load_current_conversation], [save_conversation],
    [create_new_conversation], [switch_conversation], [list_conversations] and
    [delete_conversation].

    Modelling choices, all taken from the source:
    - Python [float] is IEEE 754 binary64, here the kernel's primitive
      [float]; Python [int] is [Z].
    - A Python [dict] read from JSON may lack any key, so records that stand
      for such dictionaries have optional fields and a missing key raises
      [KeyError] where the source indexes with [d[k]] and takes the default
      where it uses [d.get(k, default)].
    - The directory [db/] is an explicit file-system value; every function
      that touches it is a computation in a state-and-exception monad over
      the file system and Streamlit's [st.session_state].
    - A file is written by [open(path, "w")], which truncates it, followed
      by [json.dump]; whether the dump completes or fails partway (a full
      disk, an I/O error) is a parameter of the write primitives, and the
      functions of the application are modelled with writes that complete.
      What a file holds is what [json.load] makes of it: a dictionary, or
      text that is not JSON.
    - [st.rerun()] leaves the running script by a control-flow exception that
      [except Exception] does not catch; it is the outcome [Rerun].
    - Widgets that only draw ([st.error], [st.success], [st.spinner]) have no
      effect on the modelled state and are left out. *)

From Stdlib Require Import ZArith Floats.
From stdpp Require Import gmap strings list fin_maps pretty sorting.

Set Warnings "-inexact-float".

Local Open Scope Z_scope.

(** ** Numbers *)

(** Conversion of a Python [int] to [float] (round to nearest, ties to even),
    as done implicitly by [int * float] and [float + int].  Python raises
    [OverflowError] from [2^1024] on, where this conversion gives an
    infinity; token counts are far below that. *)
Definition float_of_int (z : Z) : float :=
  SF2Prim (binary_normalize prec emax z 0 false).

(** ** Messages, usage and pricing *)

(** The [usage] dictionary of an assistant message.  [chatbot_reply] stores
    either the empty dictionary or all four keys. *)
Record usage := Usage {
  prompt_tokens : option Z;
  completion_tokens : option Z;
  total_tokens : option Z;
  response_time : option float
}.

(** [{}] *)
Definition empty_usage : usage := Usage None None None None.

(** A message dictionary: [role], [content] and, for some, [usage]. *)
Record message := Message {
  role : string;
  content : string;
  msg_usage : option usage
}.

(** An entry of [MODEL_PRICING]. *)
Record pricing := Pricing {
  opis_modelu : string;
  input_tokens : float;
  output_tokens : float
}.

Definition MODEL_PRICING : list (string * pricing) :=
  [ ("gpt-5-nano",
     Pricing "Klasyfikacja, podsumowania. Potrafi przetwarzać obrazy i tekst, ale nie jest dostępny w wersji audio."
             (0.05 / 1000000)%float (0.40 / 1000000)%float);
    ("gpt-5-mini",
     Pricing "Workflow, szybkie zadania. Potrafi przetwarzać obrazy i tekst, ale nie jest dostępny w wersji audio."
             (0.25 / 1000000)%float (2.00 / 1000000)%float);
    ("gpt-5",
     Pricing "Programowanie, skomplikowane zadania. Potrafi przetwarzać obrazy i tekst, ale nie jest dostępny w wersji audio."
             (1.25 / 1000000)%float (10.00 / 1000000)%float) ].

Definition DEFAULT_PERSONALITY : string :=
"Jesteś pomocnym asystentem AI, który odpowiada na pytania użytkownika w sposób:
- Zwięzły i zrozumiały
- Merytoryczny i dokładny
- Przyjazny i profesjonalny
- Dostosowany do kontekstu rozmowy

Jeśli otrzymasz dokument do analizy, przeanalizuj go dokładnie i odpowiedz na pytania na jego podstawie.".

(** ** Cost accountant *)

(** [usage.get("prompt_tokens", 0) * pricing["input_tokens"] +
     usage.get("completion_tokens", 0) * pricing["output_tokens"]] *)
Definition usage_cost (u : usage) (p : pricing) : float :=
  (float_of_int (default 0%Z (prompt_tokens u)) * input_tokens p
   + float_of_int (default 0%Z (completion_tokens u)) * output_tokens p)%float.

(** [usage.get("response_time", 0)], as the float it becomes when added to
    [total_time]. *)
Definition usage_time (u : usage) : float :=
  default (float_of_int 0) (response_time u).

(** One iteration of the loop of [calculate_conversation_cost] on the pair
    [(total_cost, total_time)]. *)
Definition cost_step (p : pricing) (acc : float * float) (m : message)
  : float * float :=
  match msg_usage m with
  | Some u => ((acc.1 + usage_cost u p)%float, (acc.2 + usage_time u)%float)
  | None => acc
  end.

Definition calculate_conversation_cost (messages : list message) (p : pricing)
  : float * float :=
  fold_left (cost_step p) messages (0%float, 0%float).

(** ** Exceptions, outcomes and the monad of the store operations *)

(** The exceptions the modelled functions raise.  [ClientError] stands for
    whatever the OpenAI client raises (network or API failure), with the
    text [str(e)] gives for it. *)
Inductive exn :=
| FileNotFoundError (path : string)
| JSONDecodeError (path : string)
| KeyError (key : string)
| IndexError
| AttributeError (attr : string)
| OSError (path : string)
| ClientError (description : string).

(** [str(e)].  The only caller is the handler of [chatbot_reply], in whose
    [try] only [ClientError], [IndexError] and [AttributeError] arise.  The
    text for [AttributeError] abbreviates Streamlit's; for the exceptions of
    the file functions it is that of their usual instance (a decoder that
    finds no value, a full disk). *)
Definition str (e : exn) : string :=
  match e with
  | FileNotFoundError p => "[Errno 2] No such file or directory: '" +:+ p +:+ "'"
  | JSONDecodeError _ => "Expecting value: line 1 column 1 (char 0)"
  | KeyError k => "'" +:+ k +:+ "'"
  | IndexError => "list index out of range"
  | AttributeError a => "st.session_state has no attribute " +:+ a
  | OSError p => "[Errno 28] No space left on device: '" +:+ p +:+ "'"
  | ClientError d => d
  end.

(** How a call ends: it returns, it leaves the script through [st.rerun()],
    or it raises. *)
Inductive result (A : Type) :=
| Ok (a : A)
| Rerun
| Raise (e : exn).
Arguments Ok {A} a.
Arguments Rerun {A}.
Arguments Raise {A} e.

(** ** The persisted records *)

(** The name of a file of [db/conversations/] without its [.json] suffix:
    [IntStem n] is the decimal numeral of [n], the only names the
    application writes; [OtherStem s] is a name that [int()] rejects. *)
Inductive stem :=
| IntStem (n : Z)
| OtherStem (s : string).

Global Instance stem_eq_dec : EqDecision stem.
Proof. solve_decision. Defined.

Global Instance stem_countable : Countable stem.
Proof.
  refine (inj_countable'
            (λ s, match s with IntStem n => inl n | OtherStem t => inr t end)
            (λ x, match x with inl n => IntStem n | inr t => OtherStem t end) _).
  by intros [].
Defined.

(** [int(file_path.stem)], [None] for [ValueError]. *)
Definition int_of_stem (s : stem) : option Z :=
  match s with IntStem n => Some n | OtherStem _ => None end.

(** What [json.load] makes of a file: a dictionary, or [JSONDecodeError].
    A file that [open] or [json.load] rejects with another exception (bytes
    that are not UTF-8) and a file holding JSON other than an object are
    not among the files of the model. *)
Inductive file_data (A : Type) :=
| Json (a : A)
| Malformed.
Arguments Json {A} a.
Arguments Malformed {A}.

(** A conversation dictionary, with the keys [id], [name],
    [chatbot_personality] and [messages]. *)
Record conversation := Conversation {
  conv_id : option Z;
  conv_name : option string;
  conv_chatbot_personality : option string;
  conv_messages : option (list message)
}.

(** The dictionary of [db/current.json]. *)
Record pointer := Pointer { current_conversation_id : option Z }.

(** The directory [db/]: absent, or present with [current.json] (if any) and
    the directory [conversations/] (if any) with its [.json] files. *)
Inductive fs :=
| NoDb
| Db (current_json : option (file_data pointer))
     (conversations : option (gmap stem (file_data conversation))).

Definition current_file (d : fs) : option (file_data pointer) :=
  match d with Db c _ => c | NoDb => None end.

Definition conversation_files (d : fs) : gmap stem (file_data conversation) :=
  match d with Db _ (Some m) => m | _ => ∅ end.

(** [st.session_state], with the keys the modelled functions use. *)
Record session_state := SessionState {
  conversation_id : option Z;
  conversation_name : option string;
  messages : option (list message);
  chatbot_personality : option string;
  selected_model : option string;
  error_message : option string
}.

Record world := World { disk : fs; session : session_state }.

(** A call: from the state before it to the state after it and the way it
    ended.  What was written before an exception stays written. *)
Definition M (A : Type) : Type := world → world * result A.

Global Instance M_ret : MRet M := λ A a w, (w, Ok a).

Global Instance M_bind : MBind M := λ A B f m w,
  match m w with
  | (w', Ok a) => f a w'
  | (w', Rerun) => (w', Rerun)
  | (w', Raise e) => (w', Raise e)
  end.

Definition raise {A} (e : exn) : M A := λ w, (w, Raise e).

(** [st.rerun()] *)
Definition rerun {A} : M A := λ w, (w, Rerun).

Definition gets {A} (f : world → A) : M A := λ w, (w, Ok (f w)).

Definition set_session (s : session_state) : M unit :=
  λ w, (World (disk w) s, Ok tt).

(** [try: body except Exception as e: handler(e)]; [st.rerun()] is not an
    [Exception] and passes through. *)
Definition try_except {A} (body : M A) (handler : exn → M A) : M A := λ w,
  match body w with
  | (w', Raise e) => handler e w'
  | r => r
  end.

(** [d[key]] on a dictionary whose key may be missing. *)
Definition getitem {A} (field : option A) (key : string) : M A :=
  match field with
  | Some a => mret a
  | None => raise (KeyError key)
  end.

(** ** File primitives *)

Definition conversation_path (cid : Z) : string :=
  "db/conversations/" +:+ pretty cid +:+ ".json".

Definition current_path : string := "db/current.json".

(** How a [json.dump] into an opened file ends: all the text is written, or
    the write fails partway (full disk, I/O error) and raises. *)
Inductive io := Completes | FailsPartway.

(** [open(DB_CONVERSATIONS_PATH / f"{cid}.json", "w")]: creates the file or
    truncates it; an empty file is not JSON.  The directory must exist. *)
Definition open_conversation_w (cid : Z) : M unit := λ w,
  match disk w with
  | Db cur (Some m) =>
      (World (Db cur (Some (<[IntStem cid := Malformed]> m))) (session w), Ok tt)
  | _ => (w, Raise (FileNotFoundError (conversation_path cid)))
  end.

(** [json.dump(c, f, ...)] into the file just opened: the whole text, or a
    proper prefix of it, which is not JSON either; the prefix is taken to
    end between two characters, so that it still decodes as UTF-8. *)
Definition json_dump_conversation (how : io) (cid : Z) (c : conversation)
  : M unit := λ w,
  match disk w, how with
  | Db cur (Some m), Completes =>
      (World (Db cur (Some (<[IntStem cid := Json c]> m))) (session w), Ok tt)
  | Db cur (Some m), FailsPartway =>
      (World (Db cur (Some (<[IntStem cid := Malformed]> m))) (session w),
       Raise (OSError (conversation_path cid)))
  | _, _ => (w, Raise (FileNotFoundError (conversation_path cid)))
  end.

(** [with open(DB_CONVERSATIONS_PATH / f"{cid}.json", "w", ...) as f:
       json.dump(c, f, ...)] *)
Definition write_conversation (how : io) (cid : Z) (c : conversation)
  : M unit :=
  open_conversation_w cid;; json_dump_conversation how cid c.

(** [open(DB_PATH / "current.json", "w")] *)
Definition open_current_w : M unit := λ w,
  match disk w with
  | Db _ convs => (World (Db (Some Malformed) convs) (session w), Ok tt)
  | NoDb => (w, Raise (FileNotFoundError current_path))
  end.

Definition json_dump_current (how : io) (p : pointer) : M unit := λ w,
  match disk w, how with
  | Db _ convs, Completes => (World (Db (Some (Json p)) convs) (session w), Ok tt)
  | Db _ convs, FailsPartway =>
      (World (Db (Some Malformed) convs) (session w), Raise (OSError current_path))
  | NoDb, _ => (w, Raise (FileNotFoundError current_path))
  end.

(** [with open(DB_PATH / "current.json", "w", ...) as f:
       json.dump({"current_conversation_id": cid}, f, indent=2)] *)
Definition write_current (how : io) (cid : Z) : M unit :=
  open_current_w;; json_dump_current how (Pointer (Some cid)).

(** [conversation_file.exists()] *)
Definition conversation_exists (cid : Z) : M bool :=
  gets (λ w, bool_decide (is_Some (conversation_files (disk w) !! IntStem cid))).

(** [with open(conversation_file, "r", ...) as f: json.load(f)] *)
Definition read_conversation (cid : Z) : M conversation := λ w,
  match conversation_files (disk w) !! IntStem cid with
  | Some (Json c) => (w, Ok c)
  | Some Malformed => (w, Raise (JSONDecodeError (conversation_path cid)))
  | None => (w, Raise (FileNotFoundError (conversation_path cid)))
  end.

(** [conversation_file.unlink()] *)
Definition unlink_conversation (cid : Z) : M unit := λ w,
  match disk w with
  | Db cur (Some m) =>
      match m !! IntStem cid with
      | Some _ => (World (Db cur (Some (delete (IntStem cid) m))) (session w), Ok tt)
      | None => (w, Raise (FileNotFoundError (conversation_path cid)))
      end
  | _ => (w, Raise (FileNotFoundError (conversation_path cid)))
  end.

(** ** Database functions *)

Definition ensure_db_structure : M unit := λ w,
  match disk w with
  | NoDb => (World (Db None (Some ∅)) (session w), Ok tt)
  | Db _ _ => (w, Ok tt)
  end.

Definition load_conversation_to_state (c : conversation) : M unit :=
  i ← getitem (conv_id c) "id";
  n ← getitem (conv_name c) "name";
  ms ← getitem (conv_messages c) "messages";
  p ← getitem (conv_chatbot_personality c) "chatbot_personality";
  s ← gets session;
  set_session (SessionState (Some i) (Some n) (Some ms) (Some p)
                            (selected_model s) (error_message s)).

(** [f"Konwersacja {cid}"] *)
Definition default_name (cid : Z) : string := "Konwersacja " +:+ pretty cid.

(** The conversation written on the first run. *)
Definition first_conversation : conversation :=
  Conversation (Some 1) (Some "Pierwsza konwersacja")
               (Some DEFAULT_PERSONALITY) (Some []).

(** The conversation built when there is no record to read. *)
Definition fresh_conversation (cid : Z) : conversation :=
  Conversation (Some cid) (Some (default_name cid))
               (Some DEFAULT_PERSONALITY) (Some []).

Definition load_current_conversation : M unit :=
  ensure_db_structure;;
  cur ← gets (λ w, current_file (disk w));
  conversation ←
    match cur with
    | None =>
        write_conversation Completes 1 first_conversation;;
        write_current Completes 1;;
        mret first_conversation
    | Some Malformed => raise (JSONDecodeError current_path)
    | Some (Json data) =>
        cid ← getitem (current_conversation_id data) "current_conversation_id";
        found ← conversation_exists cid;
        if found : bool then read_conversation cid
        else mret (fresh_conversation cid)
    end;
  load_conversation_to_state conversation.

(** [save_conversation], with the way its [json.dump] ends made explicit. *)
Definition save_conversation_with (how : io) : M unit :=
  s ← gets session;
  let cid := default 1 (conversation_id s) in
  let conversation :=
    Conversation (Some cid)
                 (Some (default (default_name cid) (conversation_name s)))
                 (Some (default DEFAULT_PERSONALITY (chatbot_personality s)))
                 (Some (default [] (messages s))) in
  write_conversation how cid conversation.

Definition save_conversation : M unit := save_conversation_with Completes.

(** [max(l, default=d)] *)
Definition max_default (l : list Z) (d : Z) : Z :=
  match l with
  | [] => d
  | x :: xs => fold_left Z.max xs x
  end.

(** The stems of [DB_CONVERSATIONS_PATH.glob("*.json")], in the order the
    directory gives them. *)
Definition glob (d : fs) : list (stem * file_data conversation) :=
  map_to_list (conversation_files d).

(** The list [conversation_ids] of [create_new_conversation]. *)
Definition conversation_ids (d : fs) : list Z :=
  omap (λ f, int_of_stem f.1) (glob d).

Definition next_id (d : fs) : Z := max_default (conversation_ids d) 0 + 1.

Definition create_new_conversation : M unit :=
  ensure_db_structure;;
  new_id ← gets (λ w, next_id (disk w));
  let conversation := fresh_conversation new_id in
  write_conversation Completes new_id conversation;;
  write_current Completes new_id;;
  load_conversation_to_state conversation;;
  s ← gets session;
  set_session (SessionState (conversation_id s) (conversation_name s)
                            (messages s) (Some DEFAULT_PERSONALITY)
                            (selected_model s) (error_message s));;
  rerun.

Definition switch_conversation (cid : Z) : M unit :=
  found ← conversation_exists cid;
  if found : bool then
    conversation ← read_conversation cid;
    write_current Completes cid;;
    load_conversation_to_state conversation;;
    rerun
  else mret tt.

(** An entry of the list [list_conversations] returns. *)
Record summary := Summary {
  summary_id : Z;
  summary_name : string;
  message_count : nat
}.

(** The body of the [try] in [list_conversations]; [None] when it raises
    [json.JSONDecodeError] or [KeyError] and the file is skipped. *)
Definition summary_of (f : file_data conversation) : option summary :=
  match f with
  | Json c =>
      i ← conv_id c;
      n ← conv_name c;
      Some (Summary i n (length (default [] (conv_messages c))))
  | Malformed => None
  end.

(** [sorted(l, key=lambda x: x["id"], reverse=True)]: a stable sort, largest
    id first, entries of equal id in their original order. *)
Fixpoint insert_desc (x : summary) (l : list summary) : list summary :=
  match l with
  | [] => [x]
  | y :: l' =>
      if bool_decide (summary_id x < summary_id y)
      then y :: insert_desc x l'
      else x :: y :: l'
  end.

Definition sorted_by_id_desc (l : list summary) : list summary :=
  foldr insert_desc [] l.

Definition list_conversations (d : fs) : list summary :=
  sorted_by_id_desc (omap (λ f, summary_of f.2) (glob d)).

Definition delete_conversation (cid : Z) : M unit :=
  found ← conversation_exists cid;
  (if found : bool then unlink_conversation cid else mret tt);;
  active ← gets (λ w, conversation_id (session w));
  if bool_decide (Some cid = active) then
    remaining ← gets (λ w, list_conversations (disk w));
    match remaining with
    | r :: _ => switch_conversation (summary_id r)
    | [] => create_new_conversation
    end
  else mret tt.

(** ** Chat orchestrator *)

(** The model client as [chatbot_reply] sees it. *)
Record api_usage := ApiUsage {
  api_prompt_tokens : Z;
  api_completion_tokens : Z;
  api_total_tokens : Z
}.

Record choice := Choice {
  finish_reason : string;
  message_content : option string
}.

Record response := Response {
  response_usage : option api_usage;
  choices : list choice
}.

Record request := Request {
  request_model : string;
  request_messages : list (string * string);
  temperature : Z;
  max_completion_tokens : Z
}.

(** A call of [chat.completions.create]: it raises, or it returns a response
    after [elapsed] seconds ([time.time() - start_time]). *)
Inductive client_result :=
| Fails (description : string)
| Returns (r : response) (elapsed : float).

Definition document_preamble : string :=
"

Otrzymałeś również następujący dokument do analizy:

".

Definition truncation_notice : string :=
"

⚠️ **Odpowiedź została obcięta** - osiągnięto limit tokenów. Zwiększ `max_completion_tokens` aby uzyskać pełną odpowiedź.".

(** The content of the message returned when the call fails. *)
Definition error_content (description : string) : string :=
  "Przepraszam, wystąpił błąd podczas generowania odpowiedzi.

**Szczegóły błędu:**
" +:+ description +:+ "

Spróbuj ponownie lub sprawdź ustawienia.".

(** The text kept in [st.session_state.error_message]. *)
Definition error_banner (description : string) : string :=
  "❌ Błąd API OpenAI: " +:+ description.

(** [if file_content:] holds for a text that is present and not empty. *)
Definition system_content (personality : string) (file_content : option string)
  : string :=
  match file_content with
  | Some (String a t) => personality +:+ document_preamble +:+ String a t
  | _ => personality
  end.

Definition request_of (model : string) (personality : string)
    (user_prompt : string) (memory : list message)
    (file_content : option string) : request :=
  Request model
          ([("system", system_content personality file_content)]
           ++ map (λ m, (role m, content m)) memory
           ++ [("user", user_prompt)])
          1 1000.

(** The [usage] dictionary built from [response.usage]. *)
Definition usage_of (u : option api_usage) (elapsed : float) : usage :=
  match u with
  | Some a => Usage (Some (api_prompt_tokens a)) (Some (api_completion_tokens a))
                    (Some (api_total_tokens a)) (Some elapsed)
  | None => empty_usage
  end.

(** The content of the reply: [choice.message.content or ""], with the
    notice appended when [finish_reason == "length"]. *)
Definition reply_content (c : choice) : string :=
  let text := default EmptyString (message_content c) in
  if bool_decide (finish_reason c = "length") then text +:+ truncation_notice
  else text.

Definition chatbot_reply (client : request → client_result)
    (user_prompt : string) (memory : list message)
    (file_content : option string) : M message :=
  personality ← gets (λ w, default DEFAULT_PERSONALITY
                             (chatbot_personality (session w)));
  try_except
    (model ← gets (λ w, selected_model (session w));
     model ← match model with
             | Some m => mret m
             | None => raise (AttributeError "selected_model")
             end;
     match client (request_of model personality user_prompt memory file_content) with
     | Fails description => raise (ClientError description)
     | Returns r elapsed =>
         let u := usage_of (response_usage r) elapsed in
         match choices r with
         | [] => raise IndexError
         | c :: _ => mret (Message "assistant" (reply_content c) (Some u))
         end
     end)
    (λ e,
       s ← gets session;
       set_session (SessionState (conversation_id s) (conversation_name s)
                                 (messages s) (chatbot_personality s)
                                 (selected_model s)
                                 (Some (error_banner (str e))));;
       mret (Message "assistant" (error_content (str e)) (Some empty_usage))).

(** * Vocabulary of the statements *)

(** [db/conversations/] exists whenever [db/] does, which is how
    [ensure_db_structure] creates them. *)
Definition layout_ok (d : fs) : Prop :=
  match d with Db _ None => False | _ => True end.

Global Instance layout_ok_dec (d : fs) : Decision (layout_ok d).
Proof. destruct d as [|cur [m|]]; simpl; apply _. Defined.

Ltac unfold_M :=
  unfold mbind, M_bind, mret, M_ret, gets, raise, rerun, set_session.

(** The session after [load_conversation_to_state] of a complete record. *)
Definition loaded (i : Z) (n : string) (ms : list message) (p : string)
    (s : session_state) : session_state :=
  SessionState (Some i) (Some n) (Some ms) (Some p)
               (selected_model s) (error_message s).

(** The conversation [save_conversation] builds from the session. *)
Definition conversation_of_session (s : session_state) : conversation :=
  let cid := default 1 (conversation_id s) in
  Conversation (Some cid)
               (Some (default (default_name cid) (conversation_name s)))
               (Some (default DEFAULT_PERSONALITY (chatbot_personality s)))
               (Some (default [] (messages s))).

(** A session of the application as a sequence of calls of the lifecycle
    functions; between two calls the interface may change the session state
    (a new name, a new personality, more messages).  Each call starts from
    the disk and the session state the previous one left. *)
Inductive op :=
| LoadCurrent
| Save
| CreateNew
| Switch (cid : Z)
| Delete (cid : Z)
| SetSession (s : session_state).

Definition step (o : op) : M unit :=
  match o with
  | LoadCurrent => load_current_conversation
  | Save => save_conversation
  | CreateNew => create_new_conversation
  | Switch cid => switch_conversation cid
  | Delete cid => delete_conversation cid
  | SetSession s => set_session s
  end.

(** The state after a sequence of calls, whatever way each one ended. *)
Definition run (ops : list op) (w : world) : world :=
  fold_left (λ w o, (step o w).1) ops w.

(** What the handler of [chatbot_reply] receives as [str(e)] when the call
    of the client does not give a usable response: the text of the
    exception the client raised, or that of the [IndexError] raised by
    [response.choices[0]] on a response without choices. *)
Definition failure_description (r : client_result) : option string :=
  match r with
  | Fails description => Some description
  | Returns r _ =>
      match choices r with
      | [] => Some (str IndexError)
      | _ :: _ => None
      end
  end.

(** Largest id first. *)
Definition id_ge (a b : summary) : Prop := summary_id b ≤ summary_id a.

(** Every readable record that has an id lies in the file named after that
    id, as all the records written by the application do. *)
Definition record_at_its_id (st : stem) (f : file_data conversation) : Prop :=
  match f with
  | Json c =>
      match conv_id c with
      | Some k => st = IntStem k
      | None => True
      end
  | Malformed => True
  end.

Global Instance record_at_its_id_dec (st : stem) (f : file_data conversation) :
  Decision (record_at_its_id st f).
Proof. destruct f as [c|]; simpl; [destruct (conv_id c)|]; apply _. Defined.

(** The stores the statements about deletion range over. *)
Definition store_ok (d : fs) : Prop :=
  layout_ok d ∧ map_Forall record_at_its_id (conversation_files d).

Global Instance store_ok_dec (d : fs) : Decision (store_ok d).
Proof. unfold store_ok. apply _. Defined.

(** The disk once the file of [cid], if any, is removed. *)
Definition unlinked (cid : Z) (d : fs) : fs :=
  match d with
  | Db cur (Some m) => Db cur (Some (delete (IntStem cid) m))
  | _ => d
  end.

(** The id of the conversation a call created, if it created one, read from
    the session it left.  [create_new_conversation] runs when the interface
    calls it and when [delete_conversation] finds no conversation left; it
    went through when the call ended by [st.rerun()]. *)
Definition created_by (o : op) (w : world) : option Z :=
  let '(w', r) := step o w in
  match o, r with
  | CreateNew, Rerun => conversation_id (session w')
  | Delete cid, Rerun =>
      match list_conversations (unlinked cid (disk w)) with
      | [] => conversation_id (session w')
      | _ :: _ => None
      end
  | _, _ => None
  end.

(** The ids of the conversations created along a sequence of calls, in
    order. *)
Fixpoint created_ids (ops : list op) (w : world) : list Z :=
  match ops with
  | [] => []
  | o :: ops' =>
      match created_by o w with
      | Some i => i :: created_ids ops' (step o w).1
      | None => created_ids ops' (step o w).1
      end
  end.

(** The call does not remove the file with the highest id: a [Delete] of an
    id that has a file finds a file with a higher id. *)
Definition keeps_highest_step (o : op) (w : world) : Prop :=
  match o with
  | Delete cid =>
      cid ∈ conversation_ids (disk w) →
      Exists (λ k, cid < k) (conversation_ids (disk w))
  | _ => True
  end.

Fixpoint keeps_highest (ops : list op) (w : world) : Prop :=
  match ops with
  | [] => True
  | o :: ops' => keeps_highest_step o w ∧ keeps_highest ops' (step o w).1
  end.

Global Instance keeps_highest_step_dec (o : op) (w : world) :
  Decision (keeps_highest_step o w).
Proof. destruct o; simpl; apply _. Defined.

Global Instance keeps_highest_dec (ops : list op) (w : world) :
  Decision (keeps_highest ops w).
Proof. revert w. induction ops as [|o ops IH]; intros w; simpl; apply _. Defined.

(** Some conversation file has an id of at least [b]. *)
Definition has_id_from (b : Z) (w : world) : Prop :=
  ∃ k, b ≤ k ∧ k ∈ conversation_ids (disk w).

(** The disk with [current.json] rewritten to name [cid]. *)
Definition with_pointer (cid : Z) (d : fs) : fs :=
  match d with
  | Db _ convs => Db (Some (Json (Pointer (Some cid)))) convs
  | NoDb => NoDb
  end.

(** * States and clients used as examples *)

(** The three messages of the order-dependence example, with the usage a
    successful [chatbot_reply] records. *)
Definition reply_a : message :=
  Message "assistant" "a" (Some (Usage (Some 1) (Some 3) (Some 4) (Some 0.1%float))).
Definition reply_b : message :=
  Message "assistant" "b" (Some (Usage (Some 3) (Some 1) (Some 4) (Some 0.2%float))).
Definition reply_c : message :=
  Message "assistant" "c" (Some (Usage (Some 4) (Some 1) (Some 5) (Some 0.3%float))).

Definition gpt_5_nano : pricing :=
  Pricing "Klasyfikacja, podsumowania. Potrafi przetwarzać obrazy i tekst, ale nie jest dostępny w wersji audio."
          (0.05 / 1000000)%float (0.40 / 1000000)%float.

Definition empty_session : session_state :=
  SessionState None None None None None None.

(** The first run, before [db/] exists. *)
Definition first_run : world := World NoDb empty_session.

Definition store_with_gap : world :=
  World (Db (Some (Json (Pointer (Some 3))))
            (Some {[ IntStem 1 := Json (fresh_conversation 1);
                     IntStem 3 := Json (fresh_conversation 3);
                     OtherStem "notes" := Malformed ]}))
        (loaded 3 (default_name 3) [] DEFAULT_PERSONALITY empty_session).

(** A store whose active conversation has a customised personality. *)
Definition pirate_world : world :=
  World (Db (Some (Json (Pointer (Some 1))))
            (Some {[ IntStem 1 :=
                       Json (Conversation (Some 1) (Some "Piraci")
                                          (Some "Odpowiadaj jak pirat.")
                                          (Some [Message "user" "Ahoj" None])) ]}))
        (loaded 1 "Piraci" [Message "user" "Ahoj" None] "Odpowiadaj jak pirat."
                empty_session).

(** A store whose pointer names conversation 7, which has no file. *)
Definition dangling_world : world :=
  World (Db (Some (Json (Pointer (Some 7))))
            (Some {[ IntStem 1 := Json first_conversation ]}))
        empty_session.

(** A store holding conversation 1 with two messages, loaded as active. *)
Definition saved_record : conversation :=
  Conversation (Some 1) (Some "Pierwsza konwersacja") (Some DEFAULT_PERSONALITY)
               (Some [Message "user" "Ahoj" None;
                      Message "assistant" "Ahoj!" (Some empty_usage)]).

Definition saved_world : world :=
  World (Db (Some (Json (Pointer (Some 1))))
            (Some {[ IntStem 1 := Json saved_record ]}))
        (loaded 1 "Nowa nazwa"
                [Message "user" "Ahoj" None;
                 Message "assistant" "Ahoj!" (Some empty_usage)]
                DEFAULT_PERSONALITY empty_session).

(** A store whose pointer names conversation 1, whose file is not JSON;
    conversation 2 is intact. *)
Definition corrupt_world : world :=
  World (Db (Some (Json (Pointer (Some 1))))
            (Some {[ IntStem 1 := Malformed;
                     IntStem 2 := Json (fresh_conversation 2) ]}))
        empty_session.

(** A client that cannot reach the API. *)
Definition unreachable_client : request → client_result :=
  λ _, Fails "Connection error.".

Definition ready_world : world :=
  World (Db (Some (Json (Pointer (Some 1))))
            (Some {[ IntStem 1 := Json first_conversation ]}))
        (SessionState (Some 1) (Some "Pierwsza konwersacja") (Some [])
                      (Some DEFAULT_PERSONALITY) (Some "gpt-5-nano") None).

(** A client whose model repeats the text of the notice and stops by
    itself. *)
Definition echo_client : request → client_result :=
  λ _, Returns (Response (Some (ApiUsage 12 40 52))
                         [Choice "stop" (Some ("Komunikat:" +:+ truncation_notice))])
               0.5%float.

(** A client whose answer is cut at the token limit. *)
Definition cut_client : request → client_result :=
  λ _, Returns (Response (Some (ApiUsage 12 1000 1012))
                         [Choice "length" (Some "Dawno, dawno temu")])
               2.5%float.


(** The scenario of the specification: conversations 1, 2 and 3, the second
    one active. *)
Definition three_conversations : world :=
  World (Db (Some (Json (Pointer (Some 2))))
            (Some {[ IntStem 1 := Json (fresh_conversation 1);
                     IntStem 2 := Json (fresh_conversation 2);
                     IntStem 3 := Json (fresh_conversation 3) ]}))
        (loaded 2 (default_name 2) [] DEFAULT_PERSONALITY empty_session).

(** * The script run: attachments, exchange rate and the panels *)

(** The rest of [app.py] is the script Streamlit runs once per interaction:
    [main] with [load_environment] and [get_usd_to_pln_rate], the panels
    [render_sidebar], [render_conversation_manager] and [render_main_chat],
    and [process_uploaded_file] with its three readers.  What a widget
    returns is decided by the user, and what the HTTP request or a library
    call on an uploaded file gives by the outside world: both are arguments
    of the model.  Calls that only draw are left out, with the texts they
    format. *)

From Stdlib Require Import Ascii.

(** ** Attachments *)

(** [s.split(sep)] for a separator of one character: the pieces between the
    separators, never an empty list. *)
Fixpoint str_split (sep : ascii) (s : string) : list string :=
  match s with
  | EmptyString => [EmptyString]
  | String c t =>
      if Ascii.eqb c sep then EmptyString :: str_split sep t
      else match str_split sep t with
           | piece :: pieces => String c piece :: pieces
           | [] => [String c EmptyString]
           end
  end.

(** [s.lower()] on the letters [A] to [Z].  Strings are UTF-8 bytes here and
    the bytes of other characters are kept; Python maps some of those
    characters too, none of them to a letter of [pdf], [docx] or [txt]. *)
Definition ascii_lower (c : ascii) : ascii :=
  let n := nat_of_ascii c in
  if ((65 <=? n) && (n <=? 90))%nat then ascii_of_nat (n + 32) else c.

Fixpoint str_lower (s : string) : string :=
  match s with
  | EmptyString => EmptyString
  | String c t => String (ascii_lower c) (str_lower t)
  end.

(** [name.split(".")[-1].lower()] *)
Definition file_extension (name : string) : string :=
  str_lower (default EmptyString (last (str_split "."%char name))).

(** What a library makes of an uploaded file: it raises, or it gives the
    parts of the document. *)
Inductive parsed (A : Type) :=
| Unreadable (description : string)
| Readable (a : A).
Arguments Unreadable {A} description.
Arguments Readable {A} a.

(** [page.extract_text()] returns the text of the page or raises. *)
Inductive page :=
| PageText (text : string)
| PageFails (description : string).

(** An uploaded file: its name, and what [PyPDF2.PdfReader], [docx.Document]
    and [read().decode("utf-8")] make of its bytes. *)
Record uploaded_file := UploadedFile {
  file_name : string;
  pdf_pages : parsed (list page);
  docx_paragraphs : parsed (list string);
  utf8_text : parsed string
}.

Definition newline : string := String "010"%char EmptyString.

(** The loop of [extract_text_from_pdf] from the text gathered so far;
    [None] when a page raises. *)
Fixpoint pdf_text (pages : list page) (text : string) : option string :=
  match pages with
  | [] => Some text
  | PageText t :: rest => pdf_text rest (text +:+ (t +:+ newline))
  | PageFails _ :: _ => None
  end.

Definition extract_text_from_pdf (f : uploaded_file) : string :=
  match pdf_pages f with
  | Readable pages => default EmptyString (pdf_text pages EmptyString)
  | Unreadable _ => EmptyString
  end.

Definition extract_text_from_docx (f : uploaded_file) : string :=
  match docx_paragraphs f with
  | Readable paragraphs =>
      fold_left (λ text paragraph, text +:+ (paragraph +:+ newline))
                paragraphs EmptyString
  | Unreadable _ => EmptyString
  end.

Definition extract_text_from_txt (f : uploaded_file) : string :=
  match utf8_text f with
  | Readable text => text
  | Unreadable _ => EmptyString
  end.

Definition process_uploaded_file (uploaded : option uploaded_file)
  : option string :=
  match uploaded with
  | None => None
  | Some f =>
      let extension := file_extension (file_name f) in
      if bool_decide (extension = "pdf") then Some (extract_text_from_pdf f)
      else if bool_decide (extension = "docx") then Some (extract_text_from_docx f)
      else if bool_decide (extension = "txt") then Some (extract_text_from_txt f)
      else None
  end.

(** ** Exchange rate *)

(** An entry of the list [rates] of the NBP answer. *)
Record nbp_rate := NbpRate {
  mid : option float;
  effectiveDate : option string
}.

(** What [requests.get] gives: it raises, or there is a response with a
    status code whose [json()] raises or is a dictionary, with or without
    the key [rates]. *)
Inductive nbp_body :=
| NotJson
| NbpData (rates : option (list nbp_rate)).

Inductive http :=
| NoResponse (description : string)
| HttpResponse (status_code : Z) (body : nbp_body).

(** The body of the [try] in [get_usd_to_pln_rate]; [None] when it raises. *)
Definition nbp_rate_of (h : http) : option (float * option string) :=
  match h with
  | NoResponse _ => None
  | HttpResponse status_code body =>
      if bool_decide (status_code ≠ 200) then None
      else match body with
           | NotJson => None
           | NbpData rates =>
               match default [] rates with
               | [] => None
               | r :: _ =>
                   match mid r with
                   | None => None
                   | Some rate => Some (rate, effectiveDate r)
                   end
               end
           end
  end.

Definition get_usd_to_pln_rate (h : http) : float * option string :=
  default (3.6%float, None) (nbp_rate_of h).

(** ** The script and its monad *)

(** The state a script run works on: the disk and the session keys of the
    store functions, the session keys [uploaded_file_content] and
    [usd_to_pln_date], and the global [USD_TO_PLN]. *)
Record script_state := ScriptState {
  script_world : world;
  uploaded_file_content : option string;
  usd_to_pln_date : option string;
  USD_TO_PLN : float
}.

(** What ends a script run besides the exceptions of the store functions:
    the [ValueError] of [list.index]. *)
Inductive error :=
| Exn (e : exn)
| ValueError (value : string).

(** How a part of the script ends: it returns, it leaves the script through
    [st.rerun()] or through [st.stop()], or it raises. *)
Inductive outcome (A : Type) :=
| Done (a : A)
| Reran
| Stopped
| Failed (e : error).
Arguments Done {A} a.
Arguments Reran {A}.
Arguments Stopped {A}.
Arguments Failed {A} e.

Definition Script (A : Type) : Type := script_state → script_state * outcome A.

Global Instance Script_ret : MRet Script := λ A a s, (s, Done a).

Global Instance Script_bind : MBind Script := λ A B f m s,
  match m s with
  | (s', Done a) => f a s'
  | (s', Reran) => (s', Reran)
  | (s', Stopped) => (s', Stopped)
  | (s', Failed e) => (s', Failed e)
  end.

(** A store function called from the script. *)
Definition lift {A} (m : M A) : Script A := λ s,
  let '(w, r) := m (script_world s) in
  (ScriptState w (uploaded_file_content s) (usd_to_pln_date s) (USD_TO_PLN s),
   match r with
   | Ok a => Done a
   | Rerun => Reran
   | Raise e => Failed (Exn e)
   end).

(** [st.stop()] *)
Definition stop {A} : Script A := λ s, (s, Stopped).

Definition fail {A} (e : error) : Script A := λ s, (s, Failed e).

(** A read of the part of the state the store functions do not use. *)
Definition reads {A} (f : script_state → A) : Script A := λ s, (s, Done (f s)).

(** What the widgets return in one script run, each as a function of the
    arguments the script passes. *)
Record user := User {
  text_area : string → string;
  model_selectbox : list string → string;
  number_input : float → float;
  text_input : string → string;
  new_button : bool;
  delete_button : bool;
  conversation_selectbox : list string → nat → string;
  close_error_button : bool;
  file_uploader : option uploaded_file;
  chat_input : option string
}.

(** [l.index(x)], [None] for [ValueError]. *)
Definition index {A} `{EqDecision A} (x : A) (l : list A) : option nat :=
  fst <$> list_find (λ y, y = x) l.

(** ** Environment *)

(** [load_environment] on the dictionary [dotenv_values(".env")] gives: the
    script stops unless [OPENAI_API_KEY] has a value that is not empty. *)
Definition load_environment (env : gmap string string)
  : Script (gmap string string) :=
  match env !! "OPENAI_API_KEY" with
  | Some (String _ _) => mret env
  | _ => stop
  end.

(** ** Sidebar *)

(** The numbers the sidebar shows: cost in USD and in PLN, the token total
    (only when there are messages) and the total response time. *)
Record sidebar := Sidebar {
  cost_usd : float;
  cost_pln : float;
  tokens : option Z;
  seconds : float
}.

(** [sum(msg.get("usage", {}).get("total_tokens", 0) for msg in messages)] *)
Definition token_total (ms : list message) : Z :=
  fold_left (λ total m,
               total + default 0 (total_tokens (default empty_usage (msg_usage m))))
            ms 0.

Definition set_chatbot_personality (p : string) : M unit :=
  s ← gets session;
  set_session (SessionState (conversation_id s) (conversation_name s)
                            (messages s) (Some p)
                            (selected_model s) (error_message s)).

Definition set_selected_model (model : string) : M unit :=
  s ← gets session;
  set_session (SessionState (conversation_id s) (conversation_name s)
                            (messages s) (chatbot_personality s)
                            (Some model) (error_message s)).

(** [render_sidebar]; the call that draws the logo is taken to succeed. *)
Definition render_sidebar (u : user) : Script sidebar :=
  personality ← lift (gets (λ w, default DEFAULT_PERSONALITY
                                   (chatbot_personality (session w))));
  lift (set_chatbot_personality (text_area u personality));;
  let model := model_selectbox u (MODEL_PRICING.*1) in
  lift (set_selected_model model);;
  pricing ← lift (getitem ((list_to_map MODEL_PRICING : gmap string pricing) !! model)
                          model);
  rate ← reads USD_TO_PLN;
  let usd_to_pln := number_input u rate in
  ms ← lift (gets (λ w, default [] (messages (session w))));
  let '(total_cost, total_time) := calculate_conversation_cost ms pricing in
  mret (Sidebar total_cost (total_cost * usd_to_pln)%float
                (match ms with [] => None | _ :: _ => Some (token_total ms) end)
                total_time).

(** ** Conversation manager *)

(** [f"{conv['name']} (id: {conv['id']}, msg: {conv['message_count']})"] *)
Definition option_label (c : summary) : string :=
  summary_name c +:+ " (id: " +:+ pretty (summary_id c)
  +:+ ", msg: " +:+ pretty (message_count c) +:+ ")".

Definition set_conversation_name (n : string) : M unit :=
  s ← gets session;
  set_session (SessionState (conversation_id s) (Some n)
                            (messages s) (chatbot_personality s)
                            (selected_model s) (error_message s)).

Definition render_conversation_manager (u : user) : Script unit :=
  name ← lift (gets (λ w, conversation_name (session w)));
  let new_name := text_input u (default EmptyString name) in
  (if bool_decide (Some new_name ≠ name)
   then lift (set_conversation_name new_name;; save_conversation)
   else mret tt);;
  (if new_button u then lift create_new_conversation else mret tt);;
  current_id ← lift (gets (λ w, default 1 (conversation_id (session w))));
  (if delete_button u then lift (delete_conversation current_id) else mret tt);;
  conversations ← lift (gets (λ w, list_conversations (disk w)));
  let conversation_names := option_label <$> take 10 conversations in
  let conversation_ids := summary_id <$> take 10 conversations in
  match conversation_names with
  | [] => mret tt
  | _ :: _ =>
      let selected_idx := default 0%nat (index current_id conversation_ids) in
      let selected_conv :=
        conversation_selectbox u conversation_names selected_idx in
      match index selected_conv conversation_names with
      | None => fail (ValueError selected_conv)
      | Some i =>
          match conversation_ids !! i with
          | None => fail (Exn IndexError)
          | Some selected_id =>
              if bool_decide (selected_id ≠ current_id)
              then lift (switch_conversation selected_id)
              else mret tt
          end
      end
  end.

(** ** Main chat *)

Definition clear_error_message : M unit :=
  s ← gets session;
  set_session (SessionState (conversation_id s) (conversation_name s)
                            (messages s) (chatbot_personality s)
                            (selected_model s) None).

Definition set_messages (ms : list message) : M unit :=
  s ← gets session;
  set_session (SessionState (conversation_id s) (conversation_name s)
                            (Some ms) (chatbot_personality s)
                            (selected_model s) (error_message s)).

Definition set_uploaded_file_content (text : string) : Script unit := λ s,
  (ScriptState (script_world s) (Some text) (usd_to_pln_date s) (USD_TO_PLN s),
   Done tt).

(** [USD_TO_PLN = rate] and [st.session_state["usd_to_pln_date"] = rate_date] *)
Definition set_usd_to_pln (rate : float) (rate_date : option string)
  : Script unit := λ s,
  (ScriptState (script_world s) (uploaded_file_content s) rate_date rate, Done tt).

(** [l[-20:]] *)
Definition last_20 {A} (l : list A) : list A := drop (length l - 20) l.

(** The body of [if user_input:].  [messages] is the list object held by
    the session when the key is there, so the first [append] shows in the
    session at once; without the key it is a list of its own until it is
    assigned. *)
Definition chat_turn (client : request → client_result) (user_input : string)
  : Script unit :=
  held ← lift (gets (λ w, messages (session w)));
  let messages := default [] held ++ [Message "user" user_input None] in
  (if held is Some _ then lift (set_messages messages) else mret tt);;
  file_content ← reads uploaded_file_content;
  response ← lift (chatbot_reply client user_input (last_20 messages) file_content);
  lift (set_messages (messages ++ [response]));;
  lift save_conversation;;
  lift rerun.

Definition render_main_chat (client : request → client_result) (u : user)
  : Script unit :=
  shown ← lift (gets (λ w, error_message (session w)));
  (if shown is Some _ then
     if close_error_button u then lift (clear_error_message;; rerun) else mret tt
   else mret tt);;
  match file_uploader u with
  | Some f =>
      match process_uploaded_file (Some f) with
      | Some (String a t) => set_uploaded_file_content (String a t)
      | _ => mret tt
      end
  | None => mret tt
  end;;
  match chat_input u with
  | Some (String a t) => chat_turn client (String a t)
  | _ => mret tt
  end.

(** ** The script *)

(** [main], for the answer [h] of the NBP service and the client
    [openai api_key] that [OpenAI(api_key=...)] builds. *)
Definition main (env : gmap string string) (h : http)
    (openai : string → request → client_result) (u : user) : Script unit :=
  let '(rate, rate_date) := get_usd_to_pln_rate h in
  set_usd_to_pln rate rate_date;;
  env ← load_environment env;
  api_key ← lift (getitem (env !! "OPENAI_API_KEY") "OPENAI_API_KEY");
  conversation_id ← lift (gets (λ w, conversation_id (session w)));
  (if conversation_id is Some _ then mret tt else lift load_current_conversation);;
  render_sidebar u;;
  render_conversation_manager u;;
  render_main_chat (openai api_key) u.

(** ** Vocabulary of the statements about the script *)

(** A record as the application writes it: readable, with its four keys, in
    the file named after its id. *)
Definition complete_record (st : stem) (f : file_data conversation) : Prop :=
  match st, f with
  | IntStem k, Json (Conversation (Some i) (Some _) (Some _) (Some _)) => i = k
  | _, _ => False
  end.

Global Instance complete_record_dec (st : stem) (f : file_data conversation) :
  Decision (complete_record st f).
Proof.
  destruct st as [k|t], f as [[[i|] [n|] [p|] [ms|]]|]; simpl; apply _.
Defined.

(** The id [current.json] names. *)
Definition pointer_of (d : fs) : option Z :=
  match current_file d with
  | Some (Json (Pointer (Some p))) => Some p
  | _ => None
  end.

(** A store in which every file is a complete record and [current.json]
    names one of them. *)
Definition sound_store (d : fs) : Prop :=
  match d with
  | Db (Some (Json (Pointer (Some p)))) (Some m) =>
      map_Forall complete_record m ∧ is_Some (m !! IntStem p)
  | _ => False
  end.

Global Instance sound_store_dec (d : fs) : Decision (sound_store d).
Proof.
  destruct d as [|[[[[p|]]|]|] [m|]]; simpl; apply _.
Defined.

(** The session works on the conversation [current.json] names. *)
Definition settled (w : world) : Prop :=
  sound_store (disk w) ∧ conversation_id (session w) = pointer_of (disk w).

(** A browser session that has not loaded a conversation yet, on the first
    run or over a sound store. *)
Definition fresh_start (w : world) : Prop :=
  conversation_id (session w) = None ∧ (disk w = NoDb ∨ sound_store (disk w)).

Global Instance settled_dec (w : world) : Decision (settled w).
Proof. unfold settled. apply _. Defined.

Global Instance fresh_start_dec (w : world) : Decision (fresh_start w).
Proof.
  unfold fresh_start.
  assert (Decision (disk w = NoDb)) by (destruct (disk w); [left|right]; done).
  apply _.
Defined.

(** The widgets that offer options return one of them. *)
Definition offers_options (u : user) : Prop :=
  model_selectbox u (MODEL_PRICING.*1) ∈ MODEL_PRICING.*1
  ∧ ∀ options i, (i < length options)%nat →
                 conversation_selectbox u options i ∈ options.

(** What one script run is given. *)
Record interaction := Interaction {
  env : gmap string string;
  nbp : http;
  openai : string → request → client_result;
  widgets : user
}.

(** What happens to the application: the script runs on an interaction, or
    the browser session is replaced by a new one, with an empty
    [st.session_state]. *)
Inductive event :=
| ScriptRun (i : interaction)
| NewSession.

Definition after_event (e : event) (a : script_state) : script_state :=
  match e with
  | ScriptRun i => (main (env i) (nbp i) (openai i) (widgets i) a).1
  | NewSession =>
      ScriptState (World (disk (script_world a)) empty_session) None None (USD_TO_PLN a)
  end.

Definition after_events (events : list event) (a : script_state) : script_state :=
  fold_left (λ a e, after_event e a) events a.

(** How a part of the script can end other than by returning. *)
Inductive exit :=
| ExitRerun
| ExitStop
| ExitFail (e : error).

(** From a state in [P], the computation returns [x] in a state in [Q x] or
    leaves by the exit [k] in a state in [E k]. *)
Definition triple {A} (P : script_state → Prop) (m : Script A)
    (Q : A → script_state → Prop) (E : exit → script_state → Prop) : Prop :=
  ∀ a, P a →
    match m a with
    | (a', Done x) => Q x a'
    | (a', Reran) => E ExitRerun a'
    | (a', Stopped) => E ExitStop a'
    | (a', Failed e) => E (ExitFail e) a'
    end.

(** The state of the script once a store function has left [w]. *)
Definition with_world (w : world) (a : script_state) : script_state :=
  ScriptState w (uploaded_file_content a) (usd_to_pln_date a) (USD_TO_PLN a).

(** A panel is left by [st.rerun()], or by an exception that a widget
    returning none of its options caused. *)
Definition exit_ok (u : user) (k : exit) : Prop :=
  match k with
  | ExitRerun => True
  | ExitStop => False
  | ExitFail _ => ¬ offers_options u
  end.

(** What holds when a panel is left other than by returning. *)
Definition settled_exit (u : user) (k : exit) (a : script_state) : Prop :=
  settled (script_world a) ∧ exit_ok u k.

Definition settled_state (a : script_state) : Prop := settled (script_world a).

(** A store function that returns and changes at most session keys other
    than [conversation_id]. *)
Definition session_only {A} (m : M A) : Prop :=
  ∀ w, ∃ s x, m w = (World (disk w) s, Ok x)
              ∧ conversation_id s = conversation_id (session w).

(** The states between two script runs. *)
Definition in_service (w : world) : Prop := settled w ∨ fresh_start w.

Global Instance in_service_dec (w : world) : Decision (in_service w).
Proof. unfold in_service. apply _. Defined.

(** The user touches nothing in the conversation manager: the name field
    returns the value it shows, no button is pressed and the list returns
    the option at the index it is given. *)
Definition no_action (u : user) : Prop :=
  (∀ value, text_input u value = value)
  ∧ new_button u = false
  ∧ delete_button u = false
  ∧ ∀ options i label, options !! i = Some label →
                       conversation_selectbox u options i = label.

(** The character [c] does not occur in [s]. *)
Fixpoint char_free (c : ascii) (s : string) : Prop :=
  match s with
  | EmptyString => True
  | String x t => x ≠ c ∧ char_free c t
  end.

(** [.env] gives no usable API key: the key is missing or empty. *)
Definition api_key_missing (env : gmap string string) : Prop :=
  env !! "OPENAI_API_KEY" = None ∨ env !! "OPENAI_API_KEY" = Some EmptyString.

Global Instance api_key_missing_dec (env : gmap string string) :
  Decision (api_key_missing env).
Proof. unfold api_key_missing. apply _. Defined.

(** The computation leaves [uploaded_file_content] in [P] when it starts
    there. *)
Definition keeps_uploaded {A} (P : option string → Prop) (m : Script A) : Prop :=
  ∀ a, P (uploaded_file_content a) → P (uploaded_file_content (m a).1).

(** ** Users, files and script states used as examples *)


(** A user who sends a message. *)
Definition asking_user : user :=
  User (λ value, value) (λ options, default EmptyString (head options))
       (λ value, value) (λ value, value) false false
       (λ options i, default EmptyString (options !! i))
       false None (Some "Ahoj").

(** A user who types a new name for the conversation. *)
Definition renaming_user : user :=
  User (λ value, value) (λ options, default EmptyString (head options))
       (λ value, value) (λ _, "Korsarze") false false
       (λ options i, default EmptyString (options !! i))
       false None None.

(** A user who only edits the personality in the sidebar. *)
Definition editing_user : user :=
  User (λ _, "Odpowiadaj krótko.")
       (λ options, default EmptyString (head options))
       (λ value, value) (λ value, value) false false
       (λ options i, default EmptyString (options !! i))
       false None None.

Definition env_with_key : gmap string string :=
  {[ "OPENAI_API_KEY" := "sk-test" ]}.

Definition nbp_answer : http :=
  HttpResponse 200 (NbpData (Some [NbpRate (Some 3.6543%float) (Some "2025-07-04")])).

(** A client whose model answers with the number of messages it was sent. *)
Definition counting_client : request → client_result :=
  λ r, Returns (Response (Some (ApiUsage 30 1 31))
                         [Choice "stop" (Some (pretty (length (request_messages r))))])
               0.5%float.

Definition ready_state : script_state :=
  ScriptState ready_world None None 3.6%float.


Definition pirate_state : script_state :=
  ScriptState pirate_world None None 3.6%float.

(** A session that holds the text of an uploaded document. *)
Definition state_with_document : script_state :=
  ScriptState ready_world (Some "Regulamin") None 3.6%float.

Definition report_pdf : uploaded_file :=
  UploadedFile "raport.2025.PDF"
               (Readable [PageText "Strona 1"; PageText "Strona 2"])
               (Unreadable "File is not a zip file")
               (Unreadable "invalid start byte").

(** * Properties *)

(** ** Cost accountant *)

Section CostAccountant.
Variable p : pricing.

Lemma calculate_conversation_cost_snoc (ms : list message) (m : message) :
  calculate_conversation_cost (ms ++ [m]) p
  = cost_step p (calculate_conversation_cost ms p) m.
Proof. unfold calculate_conversation_cost. by rewrite fold_left_app. Qed.

Lemma cost_step_no_usage (acc : float * float) (m : message) :
  msg_usage m = None → cost_step p acc m = acc.
Proof. unfold cost_step. by intros ->. Qed.

(** Messages without the [usage] key are skipped by the loop. *)
Lemma fold_cost_step_filter (ms : list message) (acc : float * float) :
  fold_left (cost_step p) (filter (λ m, is_Some (msg_usage m)) ms) acc
  = fold_left (cost_step p) ms acc.
Proof.
  revert acc. induction ms as [|m ms IH]; intros acc; [done|].
  rewrite filter_cons. destruct (decide (is_Some (msg_usage m))) as [Hm|Hm].
  - simpl. apply IH.
  - simpl. rewrite IH. f_equal. symmetry. apply cost_step_no_usage.
    by destruct (msg_usage m) as [u|]; [destruct Hm|].
Qed.
End CostAccountant.

(** The prices of gpt-5-nano, as the doubles Python computes for
    [0.05 / 1_000_000] and [0.40 / 1_000_000]. *)
Example gpt_5_nano_prices :
  MODEL_PRICING !! 0%nat = Some ("gpt-5-nano", gpt_5_nano)
  ∧ input_tokens gpt_5_nano = 0x1.ad7f29abcaf49p-25%float
  ∧ output_tokens gpt_5_nano = 0x1.ad7f29abcaf49p-22%float.
Proof. split_and!; vm_compute; reflexivity. Qed.

(** Adding [0.0] changes no float but [-0.0]. *)
Lemma float_add_zero_r (x : float) : x ≠ (-0)%float → (x + 0)%float = x.
Proof.
  intros Hx.
  assert (Prim2SF (x + 0) = Prim2SF x) as Heq.
  { rewrite add_spec. change (Prim2SF 0) with (S754_zero false).
    destruct (Prim2SF x) as [[]| | |] eqn:E; try reflexivity.
    exfalso. apply Hx. rewrite <- (SF2Prim_Prim2SF x), E. reflexivity. }
  by rewrite <- (SF2Prim_Prim2SF (x + 0)), Heq, SF2Prim_Prim2SF.
Qed.

Lemma empty_usage_cost (name : string) (p : pricing) :
  (name, p) ∈ MODEL_PRICING →
  usage_cost empty_usage p = 0%float ∧ usage_time empty_usage = 0%float.
Proof.
  unfold MODEL_PRICING. rewrite !elem_of_cons, elem_of_nil.
  intros [H|[H|[H|[]]]]; injection H as -> ->; split; reflexivity.
Qed.

Lemma cost_step_empty_usage (name : string) (p : pricing)
    (acc : float * float) (m : message) :
  (name, p) ∈ MODEL_PRICING →
  msg_usage m = Some empty_usage →
  cost_step p acc m = ((acc.1 + 0)%float, (acc.2 + 0)%float).
Proof.
  intros Hp Hm. destruct (empty_usage_cost name p Hp) as [Hc Ht].
  unfold cost_step. by rewrite Hm, Hc, Ht.
Qed.

(** C3, as stated, fails: [reply_c; reply_b; reply_a] is a permutation of
    [reply_a; reply_b; reply_c], and under the pricing of gpt-5-nano the two
    orders give different totals, for the cost (2.4000000000000003e-06
    against 2.4e-06) and for the time (0.6000000000000001 against 0.6):
    binary64 addition rounds, so the sum depends on the order. *)
Lemma cost_and_time_depends_on_order :
  [reply_c; reply_b; reply_a] ≡ₚ [reply_a; reply_b; reply_c]
  ∧ ("gpt-5-nano", gpt_5_nano) ∈ MODEL_PRICING
  ∧ calculate_conversation_cost [reply_a; reply_b; reply_c] gpt_5_nano
    = (0x1.421f5f40d8377p-19, 0x1.3333333333334p-1)%float
  ∧ calculate_conversation_cost [reply_c; reply_b; reply_a] gpt_5_nano
    = (0x1.421f5f40d8376p-19, 0x1.3333333333333p-1)%float
  ∧ ((calculate_conversation_cost [reply_a; reply_b; reply_c] gpt_5_nano).1
     =? (calculate_conversation_cost [reply_c; reply_b; reply_a] gpt_5_nano).1)%float
    = false
  ∧ ((calculate_conversation_cost [reply_a; reply_b; reply_c] gpt_5_nano).2
     =? (calculate_conversation_cost [reply_c; reply_b; reply_a] gpt_5_nano).2)%float
    = false.
Proof.
  split_and!.
  - exact (reverse_Permutation [reply_a; reply_b; reply_c]).
  - apply list_elem_of_here.
  - vm_compute. reflexivity.
  - vm_compute. reflexivity.
  - vm_compute. reflexivity.
  - vm_compute. reflexivity.
Qed.

(** C3 (amended): [calculate_conversation_cost] is a left fold from
    [(0.0, 0.0)] over the messages in their order.  A message with a [usage]
    adds [prompt_tokens * input_tokens + completion_tokens * output_tokens]
    to the cost and [response_time] to the time, in binary64 arithmetic; a
    message without [usage] leaves both accumulators untouched; a message
    with the empty [usage] adds exactly [0.0] to both under every entry of
    [MODEL_PRICING], which changes no accumulator other than [-0.0].  The
    totals depend only on the messages that carry a [usage], in their order
    (messages without one may be moved or dropped freely); they are not
    invariant under every permutation, as two orders of three replies
    show.  On the two messages with usages
    {prompt_tokens: 100, completion_tokens: 50} and {prompt_tokens: 10,
    completion_tokens: 5} under the pricing {0.05/1e6, 0.40/1e6} the total
    cost is the float [(110*0.05 + 55*0.40)/1e6]. *)
Theorem calculate_conversation_cost_fold (p : pricing) :
  calculate_conversation_cost [] p = (0, 0)%float
  ∧ (∀ ms m,
       calculate_conversation_cost (ms ++ [m]) p
       = cost_step p (calculate_conversation_cost ms p) m)
  ∧ (∀ acc m u,
       msg_usage m = Some u →
       cost_step p acc m
       = ((acc.1 + (float_of_int (default 0%Z (prompt_tokens u)) * input_tokens p
                    + float_of_int (default 0%Z (completion_tokens u)) * output_tokens p))%float,
          (acc.2 + default 0%float (response_time u))%float))
  ∧ (∀ acc m, msg_usage m = None → cost_step p acc m = acc)
  ∧ (∀ name acc m,
       (name, p) ∈ MODEL_PRICING →
       msg_usage m = Some empty_usage →
       cost_step p acc m = ((acc.1 + 0)%float, (acc.2 + 0)%float)
       ∧ (acc.1 ≠ (-0)%float → acc.2 ≠ (-0)%float → cost_step p acc m = acc))
  ∧ (∀ ms ms',
       filter (λ m, is_Some (msg_usage m)) ms
       = filter (λ m, is_Some (msg_usage m)) ms' →
       calculate_conversation_cost ms p = calculate_conversation_cost ms' p)
  ∧ (∃ ms ms',
       ms ≡ₚ ms'
       ∧ calculate_conversation_cost ms gpt_5_nano
         ≠ calculate_conversation_cost ms' gpt_5_nano)
  ∧ (∀ r1 c1 r2 c2,
       (calculate_conversation_cost
          [Message r1 c1 (Some (Usage (Some 100) (Some 50) None None));
           Message r2 c2 (Some (Usage (Some 10) (Some 5) None None))]
          gpt_5_nano).1
       = ((110 * 0.05 + 55 * 0.40) / 1000000)%float).
Proof.
  split_and!.
  - reflexivity.
  - apply calculate_conversation_cost_snoc.
  - intros acc m u Hu. unfold cost_step. rewrite Hu. reflexivity.
  - apply cost_step_no_usage.
  - intros name acc m Hp Hm.
    pose proof (cost_step_empty_usage name p acc m Hp Hm) as Hstep.
    split; [exact Hstep|].
    intros H1 H2. rewrite Hstep, !float_add_zero_r by done. by destruct acc.
  - intros ms ms' Hf. unfold calculate_conversation_cost.
    by rewrite <- (fold_cost_step_filter p ms), <- (fold_cost_step_filter p ms'), Hf.
  - exists [reply_c; reply_b; reply_a], [reply_a; reply_b; reply_c].
    split; [exact (reverse_Permutation [reply_a; reply_b; reply_c])|].
    intros Heq.
    assert (((calculate_conversation_cost [reply_c; reply_b; reply_a] gpt_5_nano).2
             =? (calculate_conversation_cost [reply_a; reply_b; reply_c] gpt_5_nano).2)%float
            = false) as Hne by (vm_compute; reflexivity).
    rewrite Heq in Hne. vm_compute in Hne. discriminate.
  - intros r1 c1 r2 c2. vm_compute. reflexivity.
Qed.

(** ** Identifier allocation *)

Lemma fold_left_max_ge (l : list Z) (a : Z) : a ≤ fold_left Z.max l a.
Proof.
  revert a. induction l as [|x l IH]; intros a; simpl; [lia|].
  specialize (IH (Z.max a x)). lia.
Qed.

Lemma fold_left_max_elem (l : list Z) (a x : Z) :
  x ∈ l → x ≤ fold_left Z.max l a.
Proof.
  revert a. induction l as [|y l IH]; intros a Hx; simpl.
  - by apply elem_of_nil in Hx.
  - apply elem_of_cons in Hx as [->|Hx]; [|by apply IH].
    pose proof (fold_left_max_ge l (Z.max a y)). lia.
Qed.

Lemma fold_left_max_in (l : list Z) (a : Z) :
  fold_left Z.max l a = a ∨ fold_left Z.max l a ∈ l.
Proof.
  revert a. induction l as [|y l IH]; intros a; simpl; [by left|].
  destruct (IH (Z.max a y)) as [H|H].
  - rewrite H. destruct (Z.max_spec a y) as [[_ ->]|[_ ->]].
    + right. apply list_elem_of_here.
    + by left.
  - right. by apply list_elem_of_further.
Qed.

Lemma max_default_ge (l : list Z) (d x : Z) : x ∈ l → x ≤ max_default l d.
Proof.
  destruct l as [|y l]; simpl; intros Hx.
  - by apply elem_of_nil in Hx.
  - apply elem_of_cons in Hx as [->|Hx].
    + apply fold_left_max_ge.
    + by apply fold_left_max_elem.
Qed.

Lemma max_default_in (l : list Z) (d : Z) :
  l ≠ [] → max_default l d ∈ l.
Proof.
  destruct l as [|y l]; [done|]. intros _. simpl.
  destruct (fold_left_max_in l y) as [->|H].
  - apply list_elem_of_here.
  - by apply list_elem_of_further.
Qed.

(** The maximum is determined by the members of the list. *)
Lemma max_default_unique (l : list Z) (d top : Z) :
  top ∈ l → (∀ x, x ∈ l → x ≤ top) → max_default l d = top.
Proof.
  intros Hin Hle.
  assert (l ≠ []) as Hne by (intros ->; by apply elem_of_nil in Hin).
  pose proof (max_default_in l d Hne) as H1.
  pose proof (max_default_ge l d top Hin) as H2.
  specialize (Hle _ H1). lia.
Qed.

Lemma elem_of_conversation_ids (d : fs) (k : Z) :
  k ∈ conversation_ids d ↔ is_Some (conversation_files d !! IntStem k).
Proof.
  unfold conversation_ids, glob. rewrite list_elem_of_omap. split.
  - intros [[s f] [Hin Hs]]. apply elem_of_map_to_list in Hin.
    destruct s as [n|t]; simpl in Hs; [|done]. injection Hs as ->. eauto.
  - intros [f Hf]. exists (IntStem k, f). split; [|done].
    by apply elem_of_map_to_list.
Qed.

Lemma next_id_gt (d : fs) (k : Z) : k ∈ conversation_ids d → k < next_id d.
Proof.
  intros Hk. unfold next_id.
  pose proof (max_default_ge _ 0 _ Hk). lia.
Qed.

Lemma next_id_fresh (d : fs) : conversation_files d !! IntStem (next_id d) = None.
Proof.
  destruct (conversation_files d !! IntStem (next_id d)) as [f|] eqn:E; [|done].
  assert (next_id d ∈ conversation_ids d) as H
    by (apply elem_of_conversation_ids; eauto).
  apply next_id_gt in H. lia.
Qed.

Lemma next_id_empty (d : fs) : conversation_ids d = [] → next_id d = 1.
Proof. unfold next_id. by intros ->. Qed.

(** ** Runs of the store operations *)

Lemma create_new_conversation_run (w : world) :
  layout_ok (disk w) →
  let n := next_id (disk w) in
  create_new_conversation w
  = (World (Db (Some (Json (Pointer (Some n))))
               (Some (<[IntStem n := Json (fresh_conversation n)]>
                        (conversation_files (disk w)))))
           (loaded n (default_name n) [] DEFAULT_PERSONALITY (session w)),
     Rerun).
Proof.
  destruct w as [[|cur [m|]] s]; intros H n; [| |done].
  all: unfold create_new_conversation, write_conversation, write_current,
         load_conversation_to_state; unfold_M; simpl.
  all: rewrite insert_insert_eq; reflexivity.
Qed.

Lemma load_current_conversation_first_run (w : world) :
  layout_ok (disk w) →
  current_file (disk w) = None →
  load_current_conversation w
  = (World (Db (Some (Json (Pointer (Some 1))))
               (Some (<[IntStem 1 := Json first_conversation]>
                        (conversation_files (disk w)))))
           (loaded 1 "Pierwsza konwersacja" [] DEFAULT_PERSONALITY (session w)),
     Ok tt).
Proof.
  destruct w as [[|cur [m|]] s]; intros H Hcur; [| |done].
  - unfold load_current_conversation, write_conversation, write_current,
      load_conversation_to_state; unfold_M; simpl.
    rewrite insert_insert_eq; reflexivity.
  - simpl in Hcur. subst cur.
    unfold load_current_conversation, write_conversation, write_current,
      load_conversation_to_state; unfold_M; simpl.
    rewrite insert_insert_eq; reflexivity.
Qed.

Lemma load_current_conversation_fallback (w : world) (cid : Z) :
  current_file (disk w) = Some (Json (Pointer (Some cid))) →
  conversation_files (disk w) !! IntStem cid = None →
  load_current_conversation w
  = (World (disk w)
           (loaded cid (default_name cid) [] DEFAULT_PERSONALITY (session w)),
     Ok tt).
Proof.
  destruct w as [[|cur convs] s]; simpl; intros Hcur Hnone; [done|].
  subst cur.
  unfold load_current_conversation, conversation_exists, load_conversation_to_state;
    unfold_M; simpl.
  rewrite Hnone. rewrite bool_decide_eq_false_2 by (by intros [? ?]).
  reflexivity.
Qed.

Lemma save_conversation_with_run (how : io) (cur : option (file_data pointer))
    (m : gmap stem (file_data conversation)) (s : session_state) :
  let cid := default 1 (conversation_id s) in
  save_conversation_with how (World (Db cur (Some m)) s)
  = match how with
    | Completes =>
        (World (Db cur (Some (<[IntStem cid := Json (conversation_of_session s)]> m))) s,
         Ok tt)
    | FailsPartway =>
        (World (Db cur (Some (<[IntStem cid := Malformed]> m))) s,
         Raise (OSError (conversation_path cid)))
    end.
Proof.
  intros cid.
  destruct how; unfold save_conversation_with, write_conversation; unfold_M;
    simpl; unfold json_dump_conversation; simpl;
    rewrite insert_insert_eq; reflexivity.
Qed.

(** ** Lifecycle: successive creations *)

Lemma next_id_after_create (d : fs) (cur : option (file_data pointer))
    (f : file_data conversation) :
  next_id (Db cur (Some (<[IntStem (next_id d) := f]> (conversation_files d))))
  = next_id d + 1.
Proof.
  unfold next_id at 1. f_equal. apply max_default_unique.
  - apply elem_of_conversation_ids. simpl. rewrite lookup_insert_eq. eauto.
  - intros x Hx. apply elem_of_conversation_ids in Hx. simpl in Hx.
    destruct (decide (x = next_id d)) as [->|Hne]; [lia|].
    rewrite lookup_insert_ne in Hx by congruence.
    apply elem_of_conversation_ids, next_id_gt in Hx. lia.
Qed.

Lemma created_by_create_new (w : world) :
  layout_ok (disk w) → created_by CreateNew w = Some (next_id (disk w)).
Proof.
  intros Hw. unfold created_by. simpl.
  by rewrite (create_new_conversation_run w Hw).
Qed.

Lemma created_ids_creations (k : nat) (w : world) :
  layout_ok (disk w) →
  created_ids (replicate k CreateNew) w
  = (λ i : nat, next_id (disk w) + Z.of_nat i) <$> seq 0 k.
Proof.
  revert w. induction k as [|k IH]; intros w Hw; [done|].
  simpl. rewrite (created_by_create_new w Hw).
  rewrite (create_new_conversation_run w Hw). simpl.
  rewrite IH by done. simpl. rewrite next_id_after_create.
  f_equal; [lia|]. rewrite <- fmap_S_seq, <- list_fmap_compose.
  apply list_fmap_ext. intros _ i _. simpl. lia.
Qed.

(** ** Lifecycle: creation and first run *)

(** C9: whatever the state before, and so whatever personality the active
    conversation had, the conversation made by [create_new_conversation] has
    the default personality, the name [f"Konwersacja {new_id}"] (the
    application's wording of the default name) and no messages, on disk and
    in the session, and it is the current one. *)
Theorem create_new_conversation_resets_personality (w : world) :
  layout_ok (disk w) →
  ∃ w',
    create_new_conversation w = (w', Rerun)
    ∧ let new_id := next_id (disk w) in
      conversation_files (disk w') !! IntStem new_id
      = Some (Json (Conversation (Some new_id)
                                 (Some ("Konwersacja " +:+ pretty new_id))
                                 (Some DEFAULT_PERSONALITY) (Some [])))
      ∧ current_file (disk w') = Some (Json (Pointer (Some new_id)))
      ∧ conversation_id (session w') = Some new_id
      ∧ conversation_name (session w') = Some ("Konwersacja " +:+ pretty new_id)
      ∧ chatbot_personality (session w') = Some DEFAULT_PERSONALITY
      ∧ messages (session w') = Some [].
Proof.
  intros Hw. eexists. split; [exact (create_new_conversation_run w Hw)|].
  simpl. rewrite lookup_insert_eq. by split_and!.
Qed.

Lemma create_new_conversation_resets_personality_witness :
  layout_ok (disk pirate_world)
  ∧ chatbot_personality (session pirate_world) = Some "Odpowiadaj jak pirat."
  ∧ ∃ w',
      create_new_conversation pirate_world = (w', Rerun)
      ∧ let new_id := next_id (disk pirate_world) in
        conversation_files (disk w') !! IntStem new_id
        = Some (Json (Conversation (Some new_id)
                                   (Some ("Konwersacja " +:+ pretty new_id))
                                   (Some DEFAULT_PERSONALITY) (Some [])))
        ∧ current_file (disk w') = Some (Json (Pointer (Some new_id)))
        ∧ conversation_id (session w') = Some new_id
        ∧ conversation_name (session w') = Some ("Konwersacja " +:+ pretty new_id)
        ∧ chatbot_personality (session w') = Some DEFAULT_PERSONALITY
        ∧ messages (session w') = Some [].
Proof.
  split; [exact I|]. split; [reflexivity|].
  apply (create_new_conversation_resets_personality pirate_world). exact I.
Defined.




(** ** Lifecycle: dangling pointer *)

(** C10: when [current.json] names a conversation whose file is missing,
    [load_current_conversation] builds the fallback conversation (that id,
    the default name pattern, the default personality, no messages) in the
    session only: the disk after the load is the disk before it, so neither
    the conversation file nor [current.json] is written; a later
    [save_conversation] is what writes the fallback record. *)
Theorem load_current_conversation_fallback_not_persisted (w : world) (cid : Z) :
  current_file (disk w) = Some (Json (Pointer (Some cid))) →
  conversation_files (disk w) !! IntStem cid = None →
  ∃ w',
    load_current_conversation w = (w', Ok tt)
    ∧ disk w' = disk w
    ∧ conversation_files (disk w') !! IntStem cid = None
    ∧ conversation_id (session w') = Some cid
    ∧ conversation_name (session w') = Some ("Konwersacja " +:+ pretty cid)
    ∧ chatbot_personality (session w') = Some DEFAULT_PERSONALITY
    ∧ messages (session w') = Some []
    ∧ (∀ cur m,
         disk w = Db cur (Some m) →
         save_conversation w'
         = (World (Db cur (Some (<[IntStem cid :=
                                     Json (Conversation
                                             (Some cid)
                                             (Some ("Konwersacja " +:+ pretty cid))
                                             (Some DEFAULT_PERSONALITY)
                                             (Some []))]> m)))
                  (session w'),
            Ok tt)).
Proof.
  intros Hcur Hnone. eexists.
  split; [exact (load_current_conversation_fallback w cid Hcur Hnone)|].
  simpl. split_and!; try done.
  intros cur m Hd. rewrite Hd. unfold save_conversation.
  by rewrite save_conversation_with_run.
Qed.

Lemma load_current_conversation_fallback_not_persisted_witness :
  current_file (disk dangling_world) = Some (Json (Pointer (Some 7)))
  ∧ conversation_files (disk dangling_world) !! IntStem 7 = None
  ∧ ∃ w',
      load_current_conversation dangling_world = (w', Ok tt)
      ∧ disk w' = disk dangling_world
      ∧ conversation_files (disk w') !! IntStem 7 = None
      ∧ conversation_id (session w') = Some 7
      ∧ conversation_name (session w') = Some ("Konwersacja " +:+ pretty 7)
      ∧ chatbot_personality (session w') = Some DEFAULT_PERSONALITY
      ∧ messages (session w') = Some []
      ∧ (∀ cur m,
           disk dangling_world = Db cur (Some m) →
           save_conversation w'
           = (World (Db cur (Some (<[IntStem 7 :=
                                       Json (Conversation
                                               (Some 7)
                                               (Some ("Konwersacja " +:+ pretty 7))
                                               (Some DEFAULT_PERSONALITY)
                                               (Some []))]> m)))
                    (session w'),
              Ok tt)).
Proof.
  split; [reflexivity|]. split; [reflexivity|].
  apply (load_current_conversation_fallback_not_persisted dangling_world 7);
    reflexivity.
Defined.

(** ** Store: writing a record *)

(** C5, as stated, fails: the record is written in place, by
    [open(path, "w")] followed by [json.dump].  Conversation 1 is readable
    before; when the [json.dump] of [save_conversation] fails partway, the
    file is left truncated and reading it raises [JSONDecodeError]: the old
    record is lost and the new one is unreadable. *)
Lemma save_conversation_partial_write :
  read_conversation 1 saved_world = (saved_world, Ok saved_record)
  ∧ ∃ w',
      save_conversation_with FailsPartway saved_world
      = (w', Raise (OSError "db/conversations/1.json"))
      ∧ conversation_files (disk w') !! IntStem 1 = Some Malformed
      ∧ read_conversation 1 w'
        = (w', Raise (JSONDecodeError "db/conversations/1.json")).
Proof.
  split; [vm_compute; reflexivity|].
  eexists. split; [vm_compute; reflexivity|].
  split; vm_compute; reflexivity.
Qed.

(** C5 (amended): writing a conversation record that goes through stores
    the full record under its id, replacing any record with that id and
    leaving every other file, the pointer and the session as they were, so
    that reading the id back gives the record written;
    [save_conversation] is such a write of the session's conversation.  The
    write is made in place and is not atomic: when it fails partway, the
    file of that id is left unreadable (the other files are untouched). *)
Theorem write_conversation_in_place (cur : option (file_data pointer))
    (m : gmap stem (file_data conversation)) (s : session_state)
    (cid : Z) (c : conversation) :
  let w := World (Db cur (Some m)) s in
  (∃ w',
     write_conversation Completes cid c w = (w', Ok tt)
     ∧ conversation_files (disk w') = <[IntStem cid := Json c]> m
     ∧ read_conversation cid w' = (w', Ok c)
     ∧ (∀ k, k ≠ IntStem cid → conversation_files (disk w') !! k = m !! k)
     ∧ current_file (disk w') = cur
     ∧ session w' = s)
  ∧ (∃ w',
       write_conversation FailsPartway cid c w
       = (w', Raise (OSError (conversation_path cid)))
       ∧ read_conversation cid w'
         = (w', Raise (JSONDecodeError (conversation_path cid)))
       ∧ (∀ k, k ≠ IntStem cid → conversation_files (disk w') !! k = m !! k))
  ∧ save_conversation w
    = write_conversation Completes (default 1 (conversation_id s))
                         (conversation_of_session s) w.
Proof.
  intros w. split_and!.
  - exists (World (Db cur (Some (<[IntStem cid := Json c]> m))) s).
    split_and!; try done.
    + unfold w, write_conversation; unfold_M; simpl.
      unfold json_dump_conversation; simpl. by rewrite insert_insert_eq.
    + unfold read_conversation. simpl. by rewrite lookup_insert_eq.
    + intros k Hk. simpl. by rewrite lookup_insert_ne.
  - exists (World (Db cur (Some (<[IntStem cid := Malformed]> m))) s).
    split_and!.
    + unfold w, write_conversation; unfold_M; simpl.
      unfold json_dump_conversation; simpl. by rewrite insert_insert_eq.
    + unfold read_conversation. simpl. by rewrite lookup_insert_eq.
    + intros k Hk. simpl. by rewrite lookup_insert_ne.
  - reflexivity.
Qed.

(** ** Store: reading a corrupt record *)

Lemma load_current_conversation_corrupt (w : world) (cid : Z) :
  current_file (disk w) = Some (Json (Pointer (Some cid))) →
  conversation_files (disk w) !! IntStem cid = Some Malformed →
  load_current_conversation w
  = (w, Raise (JSONDecodeError (conversation_path cid))).
Proof.
  destruct w as [[|cur convs] s]; simpl; intros Hcur Hbad; [done|]. subst cur.
  unfold load_current_conversation, conversation_exists, read_conversation;
    unfold_M; simpl.
  rewrite Hbad, bool_decide_eq_true_2 by eauto. simpl. by rewrite Hbad.
Qed.

Lemma switch_conversation_corrupt (w : world) (cid : Z) :
  conversation_files (disk w) !! IntStem cid = Some Malformed →
  switch_conversation cid w
  = (w, Raise (JSONDecodeError (conversation_path cid))).
Proof.
  intros Hbad.
  unfold switch_conversation, conversation_exists, read_conversation;
    unfold_M; simpl.
  rewrite Hbad, bool_decide_eq_true_2 by eauto. simpl. by rewrite Hbad.
Qed.

(** C6 (the code at the failing input): a corrupt record is told apart from
    a missing one ([JSONDecodeError] against [FileNotFoundError]) and
    [list_conversations] skips it, but [load_current_conversation] and
    [switch_conversation] let the [JSONDecodeError] escape: both end by
    raising it, with the store and the session as they were.  The record
    left by a [save_conversation] that failed partway is such a record: the
    next start of the application ends in [JSONDecodeError]. *)
Theorem corrupt_record_escapes :
  read_conversation 1 corrupt_world
  = (corrupt_world, Raise (JSONDecodeError "db/conversations/1.json"))
  ∧ read_conversation 3 corrupt_world
    = (corrupt_world, Raise (FileNotFoundError "db/conversations/3.json"))
  ∧ list_conversations (disk corrupt_world) = [Summary 2 "Konwersacja 2" 0]
  ∧ load_current_conversation corrupt_world
    = (corrupt_world, Raise (JSONDecodeError "db/conversations/1.json"))
  ∧ switch_conversation 1 corrupt_world
    = (corrupt_world, Raise (JSONDecodeError "db/conversations/1.json"))
  ∧ (load_current_conversation
       (World (disk (save_conversation_with FailsPartway saved_world).1)
              empty_session)).2
    = Raise (JSONDecodeError "db/conversations/1.json").
Proof.
  split_and!.
  - vm_compute; reflexivity.
  - vm_compute; reflexivity.
  - vm_compute; reflexivity.
  - by apply (load_current_conversation_corrupt corrupt_world 1).
  - by apply (switch_conversation_corrupt corrupt_world 1).
  - vm_compute; reflexivity.
Qed.

(** ** Chat orchestrator *)

Lemma failed_reply_cost (d : string) (name : string) (p : pricing) :
  (name, p) ∈ MODEL_PRICING →
  calculate_conversation_cost
    [Message "assistant" (error_content d) (Some empty_usage)] p
  = (0, 0)%float.
Proof.
  intros Hp. unfold calculate_conversation_cost. simpl.
  by rewrite (cost_step_empty_usage name p) by done.
Qed.

(** C4: [chatbot_reply] never raises to its caller and never touches the
    store.  When the client fails (it raises, with description [d], or it
    returns a response without choices), the result is the assistant
    message whose content is the fixed error template, written out in the
    statement, with [d] embedded after the line of the details, and whose
    usage is the empty dictionary; [d] is also kept as the session's error
    message.  Under every entry of [MODEL_PRICING] that message costs
    [(0.0, 0.0)] and adds exactly [0.0] to both accumulators of
    [calculate_conversation_cost]. *)
Theorem chatbot_reply_failure (client : request → client_result)
    (user_prompt : string) (memory : list message)
    (file_content : option string) (w : world) :
  (∃ w' m,
     chatbot_reply client user_prompt memory file_content w = (w', Ok m)
     ∧ role m = "assistant"
     ∧ disk w' = disk w)
  ∧ (∀ model d,
       selected_model (session w) = Some model →
       failure_description
         (client (request_of model
                             (default DEFAULT_PERSONALITY
                                      (chatbot_personality (session w)))
                             user_prompt memory file_content)) = Some d →
       let reply := Message "assistant" (error_content d) (Some empty_usage) in
       ∃ w',
         chatbot_reply client user_prompt memory file_content w = (w', Ok reply)
         ∧ content reply
           = "Przepraszam, wystąpił błąd podczas generowania odpowiedzi.

**Szczegóły błędu:**
" +:+ d +:+ "

Spróbuj ponownie lub sprawdź ustawienia."
         ∧ msg_usage reply = Some (Usage None None None None)
         ∧ disk w' = disk w
         ∧ error_message (session w') = Some ("❌ Błąd API OpenAI: " +:+ d)
         ∧ (∀ name p,
              (name, p) ∈ MODEL_PRICING →
              calculate_conversation_cost [reply] p = (0, 0)%float
              ∧ ∀ acc, cost_step p acc reply
                       = ((acc.1 + 0)%float, (acc.2 + 0)%float))).
Proof.
  split.
  - unfold chatbot_reply, try_except; unfold_M; simpl.
    destruct (selected_model (session w)) as [model|]; simpl; [|by eauto].
    destruct (client _) as [d|r elapsed]; simpl; [by eauto|].
    destruct (choices r) as [|c rest]; simpl; by eauto.
  - intros model d Hmodel Hfail reply.
    assert (chatbot_reply client user_prompt memory file_content w
            = (World (disk w)
                     (SessionState (conversation_id (session w))
                                   (conversation_name (session w))
                                   (messages (session w))
                                   (chatbot_personality (session w))
                                   (selected_model (session w))
                                   (Some (error_banner d))),
               Ok reply)) as Hrun.
    { unfold chatbot_reply, try_except; unfold_M; simpl. rewrite Hmodel. simpl.
      destruct (client _) as [d'|r elapsed]; simpl in *.
      - injection Hfail as ->. by rewrite Hmodel.
      - destruct (choices r) as [|c rest]; simpl in *; [|done].
        injection Hfail as <-. by rewrite Hmodel. }
    eexists. split; [exact Hrun|]. simpl. split_and!; try done.
    intros name p Hp. split; [by eapply failed_reply_cost|].
    intros acc. by apply (cost_step_empty_usage name).
Qed.

Lemma chatbot_reply_failure_witness :
  selected_model (session ready_world) = Some "gpt-5-nano"
  ∧ failure_description
      (unreachable_client
         (request_of "gpt-5-nano"
                     (default DEFAULT_PERSONALITY
                              (chatbot_personality (session ready_world)))
                     "hello" [] None)) = Some "Connection error."
  ∧ ∃ w',
      chatbot_reply unreachable_client "hello" [] None ready_world
      = (w', Ok (Message "assistant" (error_content "Connection error.")
                         (Some empty_usage)))
      ∧ content (Message "assistant" (error_content "Connection error.")
                         (Some empty_usage))
        = "Przepraszam, wystąpił błąd podczas generowania odpowiedzi.

**Szczegóły błędu:**
Connection error.

Spróbuj ponownie lub sprawdź ustawienia."
      ∧ msg_usage (Message "assistant" (error_content "Connection error.")
                           (Some empty_usage))
        = Some (Usage None None None None)
      ∧ disk w' = disk ready_world
      ∧ error_message (session w') = Some "❌ Błąd API OpenAI: Connection error."
      ∧ (∀ name p,
           (name, p) ∈ MODEL_PRICING →
           calculate_conversation_cost
             [Message "assistant" (error_content "Connection error.")
                      (Some empty_usage)] p = (0, 0)%float
           ∧ ∀ acc, cost_step p acc
                      (Message "assistant" (error_content "Connection error.")
                               (Some empty_usage))
                    = ((acc.1 + 0)%float, (acc.2 + 0)%float)).
Proof.
  split; [reflexivity|]. split; [reflexivity|].
  apply (proj2 (chatbot_reply_failure unreachable_client "hello" [] None ready_world)
               "gpt-5-nano" "Connection error."); reflexivity.
Defined.

(** C8, as stated, fails in its second half: with [finish_reason = "stop"]
    the content is returned as the model gave it, so when the model's own
    text holds the notice (here from position 10 on) the returned content
    holds it too. *)
Lemma stop_reply_can_hold_the_notice :
  ∃ m,
    chatbot_reply echo_client "Jaki jest komunikat?" [] None ready_world
    = (ready_world, Ok m)
    ∧ content m = "Komunikat:" +:+ truncation_notice
    ∧ String.index 0 truncation_notice (content m) = Some 10%nat.
Proof. eexists. split_and!; vm_compute; reflexivity. Qed.

(** C8 (amended): when the client returns a response, the reply is an
    assistant message built from its first choice.  If
    [finish_reason = "length"] its content is the model's content with the
    truncation notice appended, so it ends in the notice; for every other
    [finish_reason], and so for ["stop"], its content is the model's content
    unchanged (the empty string when the model gave none): no notice is
    added, and the notice occurs in it exactly where it occurs in the
    model's own content. *)
Theorem chatbot_reply_truncation (client : request → client_result)
    (user_prompt : string) (memory : list message)
    (file_content : option string) (w : world) (model : string)
    (r : response) (elapsed : float) (c : choice) (rest : list choice) :
  selected_model (session w) = Some model →
  client (request_of model
                     (default DEFAULT_PERSONALITY (chatbot_personality (session w)))
                     user_prompt memory file_content) = Returns r elapsed →
  choices r = c :: rest →
  ∃ m,
    chatbot_reply client user_prompt memory file_content w = (w, Ok m)
    ∧ role m = "assistant"
    ∧ msg_usage m = Some (usage_of (response_usage r) elapsed)
    ∧ (finish_reason c = "length" →
       content m = default EmptyString (message_content c) +:+ truncation_notice)
    ∧ (finish_reason c ≠ "length" →
       content m = default EmptyString (message_content c))
    ∧ (finish_reason c = "stop" →
       content m = default EmptyString (message_content c)
       ∧ String.index 0 truncation_notice (content m)
         = String.index 0 truncation_notice
                        (default EmptyString (message_content c))).
Proof.
  intros Hmodel Hclient Hchoices. eexists. split.
  - unfold chatbot_reply, try_except; unfold_M; simpl.
    rewrite Hmodel; simpl. rewrite Hclient; simpl. rewrite Hchoices.
    destruct w; reflexivity.
  - simpl. unfold reply_content. split_and!; try done.
    + intros Hf. by rewrite bool_decide_eq_true_2.
    + intros Hf. by rewrite bool_decide_eq_false_2.
    + intros Hf. by rewrite bool_decide_eq_false_2 by (by rewrite Hf).
Qed.

Lemma chatbot_reply_truncation_witness :
  selected_model (session ready_world) = Some "gpt-5-nano"
  ∧ ∃ m,
      chatbot_reply cut_client "Opowiedz bajkę" [] None ready_world
      = (ready_world, Ok m)
      ∧ role m = "assistant"
      ∧ msg_usage m
        = Some (usage_of (Some (ApiUsage 12 1000 1012)) 2.5%float)
      ∧ (finish_reason (Choice "length" (Some "Dawno, dawno temu")) = "length" →
         content m = "Dawno, dawno temu" +:+ truncation_notice)
      ∧ (finish_reason (Choice "length" (Some "Dawno, dawno temu")) ≠ "length" →
         content m = "Dawno, dawno temu")
      ∧ (finish_reason (Choice "length" (Some "Dawno, dawno temu")) = "stop" →
         content m = "Dawno, dawno temu"
         ∧ String.index 0 truncation_notice (content m)
           = String.index 0 truncation_notice "Dawno, dawno temu").
Proof.
  split; [reflexivity|].
  apply (chatbot_reply_truncation
           cut_client "Opowiedz bajkę" [] None ready_world "gpt-5-nano"
           (Response (Some (ApiUsage 12 1000 1012))
                     [Choice "length" (Some "Dawno, dawno temu")])
           2.5%float (Choice "length" (Some "Dawno, dawno temu")) []);
    reflexivity.
Defined.

(** ** Lifecycle: deleting the active conversation *)

Lemma insert_desc_perm (x : summary) (l : list summary) :
  insert_desc x l ≡ₚ x :: l.
Proof.
  induction l as [|y l IH]; simpl; [done|].
  case_bool_decide; [|done].
  rewrite IH. apply Permutation_swap.
Qed.

Lemma sorted_by_id_desc_perm (l : list summary) : sorted_by_id_desc l ≡ₚ l.
Proof.
  induction l as [|x l IH]; simpl; [done|].
  by rewrite insert_desc_perm, IH.
Qed.

Lemma insert_desc_sorted (x : summary) (l : list summary) :
  StronglySorted id_ge l → StronglySorted id_ge (insert_desc x l).
Proof.
  induction l as [|y l IH]; simpl; intros Hl.
  - repeat constructor.
  - apply StronglySorted_cons in Hl as [Hy Hl].
    case_bool_decide as Hlt; apply StronglySorted_cons.
    + split; [|by apply IH].
      rewrite insert_desc_perm. constructor; [unfold id_ge; lia|done].
    + split; [|by apply StronglySorted_cons].
      constructor; [unfold id_ge; lia|].
      eapply Forall_impl; [exact Hy|]. unfold id_ge. intros z Hz. lia.
Qed.

Lemma sorted_by_id_desc_sorted (l : list summary) :
  StronglySorted id_ge (sorted_by_id_desc l).
Proof.
  induction l as [|x l IH]; simpl; [constructor|by apply insert_desc_sorted].
Qed.

(** The first entry of the sorted list has the highest id. *)
Lemma sorted_by_id_desc_head (l : list summary) (top : summary)
    (rest : list summary) :
  sorted_by_id_desc l = top :: rest →
  top ∈ l ∧ ∀ s, s ∈ l → summary_id s ≤ summary_id top.
Proof.
  intros Hs. pose proof (sorted_by_id_desc_sorted l) as Hsorted.
  pose proof (sorted_by_id_desc_perm l) as Hperm.
  rewrite Hs in Hsorted, Hperm.
  apply StronglySorted_cons in Hsorted as [Htop _]. split.
  - rewrite <- Hperm. apply list_elem_of_here.
  - intros s Hin. rewrite <- Hperm in Hin.
    apply elem_of_cons in Hin as [->|Hin]; [lia|].
    rewrite Forall_forall in Htop. by apply Htop.
Qed.

Lemma elem_of_list_conversations (d : fs) (s : summary) :
  s ∈ list_conversations d
  ↔ ∃ st f, conversation_files d !! st = Some f ∧ summary_of f = Some s.
Proof.
  unfold list_conversations, glob.
  rewrite sorted_by_id_desc_perm, list_elem_of_omap. split.
  - intros [[st f] [Hin Hs]]. apply elem_of_map_to_list in Hin. eauto.
  - intros (st & f & Hl & Hs). exists (st, f). split; [|done].
    by apply elem_of_map_to_list.
Qed.


Lemma conversation_files_unlinked (cid : Z) (d : fs) :
  conversation_files (unlinked cid d) = delete (IntStem cid) (conversation_files d).
Proof. destruct d as [|cur [m|]]; simpl; by rewrite ?delete_empty. Qed.

Lemma store_ok_unlinked (cid : Z) (d : fs) : store_ok d → store_ok (unlinked cid d).
Proof.
  intros [Hl Hf]. split.
  - by destruct d as [|cur [m|]].
  - rewrite conversation_files_unlinked. by apply map_Forall_delete.
Qed.

Lemma delete_conversation_active (w : world) (cid : Z) :
  conversation_id (session w) = Some cid →
  delete_conversation cid w
  = let w1 := World (unlinked cid (disk w)) (session w) in
    match list_conversations (disk w1) with
    | r :: _ => switch_conversation (summary_id r) w1
    | [] => create_new_conversation w1
    end.
Proof.
  intros Hactive. destruct w as [d s]. simpl in Hactive.
  unfold delete_conversation, conversation_exists, unlink_conversation; unfold_M.
  destruct d as [|cur [m|]]; simpl.
  - rewrite lookup_empty, bool_decide_eq_false_2 by (by intros [? ?]). simpl.
    rewrite Hactive, bool_decide_eq_true_2 by done. simpl.
    by destruct (list_conversations _).
  - destruct (m !! IntStem cid) as [f|] eqn:E.
    + rewrite bool_decide_eq_true_2 by eauto. simpl. rewrite E. simpl.
      rewrite Hactive, bool_decide_eq_true_2 by done. simpl.
      by destruct (list_conversations _).
    + rewrite bool_decide_eq_false_2 by (by intros [? ?]). simpl.
      rewrite Hactive, bool_decide_eq_true_2, delete_id by done. simpl.
      by destruct (list_conversations _).
  - rewrite lookup_empty, bool_decide_eq_false_2 by (by intros [? ?]). simpl.
    rewrite Hactive, bool_decide_eq_true_2 by done. simpl.
    by destruct (list_conversations _).
Qed.

Lemma switch_conversation_run (w : world) (cid : Z) (c : conversation) :
  conversation_files (disk w) !! IntStem cid = Some (Json c) →
  ∃ s' r,
    switch_conversation cid w = (World (with_pointer cid (disk w)) s', r)
    ∧ (r = Rerun ∧ conversation_id s' = conv_id c ∧ is_Some (conv_id c)
       ∨ (∃ k, r = Raise (KeyError k)) ∧ s' = session w).
Proof.
  destruct w as [[|cur [m|]] s]; simpl; intros Hc; try done.
  unfold switch_conversation, conversation_exists, read_conversation,
    write_current, load_conversation_to_state, getitem; unfold_M; simpl.
  rewrite Hc, bool_decide_eq_true_2 by eauto. simpl. rewrite Hc. simpl.
  destruct c as [[i|] [n|] [p|] [ms|]]; simpl;
    (do 2 eexists; split; [reflexivity|]);
    first [left; by eauto | right; by eauto].
Qed.

(** ** The store invariant *)

Lemma store_ok_insert (cur cur' : option (file_data pointer))
    (m : gmap stem (file_data conversation)) (k : Z) (f : file_data conversation) :
  store_ok (Db cur (Some m)) →
  record_at_its_id (IntStem k) f →
  store_ok (Db cur' (Some (<[IntStem k := f]> m))).
Proof.
  intros [_ Hf] Hc. split; [exact I|]. simpl in *.
  by apply map_Forall_insert_2.
Qed.

Lemma store_ok_with_pointer (cid : Z) (d : fs) :
  store_ok d → store_ok (with_pointer cid d).
Proof. by destruct d as [|cur [m|]]. Qed.

Lemma load_conversation_to_state_disk (c : conversation) (w : world) :
  disk (load_conversation_to_state c w).1 = disk w.
Proof.
  unfold load_conversation_to_state, getitem; unfold_M.
  by destruct c as [[i|] [n|] [p|] [ms|]].
Qed.

Lemma load_current_conversation_disk (w : world) (p : file_data pointer) :
  current_file (disk w) = Some p →
  disk (load_current_conversation w).1 = disk w.
Proof.
  destruct w as [[|cur convs] s]; simpl; [done|]. intros ->.
  unfold load_current_conversation, conversation_exists, read_conversation,
    getitem; unfold_M; simpl.
  destruct p as [[[cid|]]|]; simpl; try done.
  case_bool_decide as Hfound; simpl.
  - destruct (_ !! IntStem cid) as [[c|]|]; simpl; try done.
    apply (load_conversation_to_state_disk c (World _ s)).
  - apply (load_conversation_to_state_disk (fresh_conversation cid) (World _ s)).
Qed.

Lemma save_conversation_disk (w : world) :
  disk (save_conversation w).1
  = match disk w with
    | Db cur (Some m) =>
        Db cur (Some (<[IntStem (default 1 (conversation_id (session w)))
                        := Json (conversation_of_session (session w))]> m))
    | d => d
    end.
Proof.
  destruct w as [[|cur [m|]] s]; try done.
  unfold save_conversation. by rewrite save_conversation_with_run.
Qed.

Lemma switch_conversation_disk (w : world) (cid : Z) :
  disk (switch_conversation cid w).1 = disk w
  ∨ disk (switch_conversation cid w).1 = with_pointer cid (disk w).
Proof.
  destruct (conversation_files (disk w) !! IntStem cid) as [[c|]|] eqn:E.
  - destruct (switch_conversation_run w cid c E) as (s' & r & -> & _). by right.
  - left. unfold switch_conversation, conversation_exists, read_conversation;
      unfold_M; simpl.
    rewrite E, bool_decide_eq_true_2 by eauto. simpl. by rewrite E.
  - left. unfold switch_conversation, conversation_exists; unfold_M; simpl.
    by rewrite E, bool_decide_eq_false_2 by (by intros [? ?]).
Qed.

Lemma delete_conversation_inactive (w : world) (cid : Z) :
  conversation_id (session w) ≠ Some cid →
  delete_conversation cid w = (World (unlinked cid (disk w)) (session w), Ok tt).
Proof.
  intros Hactive. destruct w as [d s]. simpl in Hactive.
  unfold delete_conversation, conversation_exists, unlink_conversation; unfold_M.
  destruct d as [|cur [m|]]; simpl.
  - rewrite lookup_empty, bool_decide_eq_false_2 by (by intros [? ?]). simpl.
    by rewrite bool_decide_eq_false_2.
  - destruct (m !! IntStem cid) as [f|] eqn:E.
    + rewrite bool_decide_eq_true_2 by eauto. simpl. rewrite E. simpl.
      by rewrite bool_decide_eq_false_2.
    + rewrite bool_decide_eq_false_2 by (by intros [? ?]). simpl.
      by rewrite bool_decide_eq_false_2, delete_id.
  - rewrite lookup_empty, bool_decide_eq_false_2 by (by intros [? ?]). simpl.
    by rewrite bool_decide_eq_false_2.
Qed.

Lemma create_new_conversation_store_ok (w : world) :
  store_ok (disk w) → store_ok (disk (create_new_conversation w).1).
Proof.
  intros [Hl Hf]. rewrite (create_new_conversation_run w Hl). simpl.
  split; [exact I|]. simpl. by apply map_Forall_insert_2.
Qed.

(** Every call of a lifecycle function keeps the store invariant. *)
Lemma step_store_ok (o : op) (w : world) :
  store_ok (disk w) → store_ok (disk (step o w).1).
Proof.
  intros Hok. destruct o as [| | |cid|cid|s]; simpl.
  - destruct (current_file (disk w)) as [p|] eqn:Hcur.
    + by rewrite (load_current_conversation_disk w p).
    + destruct Hok as [Hl Hf].
      rewrite (load_current_conversation_first_run w Hl Hcur). simpl.
      split; [exact I|]. simpl. by apply map_Forall_insert_2.
  - rewrite save_conversation_disk.
    destruct (disk w) as [|cur [m|]] eqn:Hd; try done.
    by eapply store_ok_insert.
  - by apply create_new_conversation_store_ok.
  - destruct (switch_conversation_disk w cid) as [-> | ->]; [done|].
    by apply store_ok_with_pointer.
  - destruct (decide (conversation_id (session w) = Some cid)) as [Ha|Ha].
    + rewrite (delete_conversation_active w cid Ha). simpl.
      pose proof (store_ok_unlinked cid _ Hok) as Hok1.
      set (w1 := World (unlinked cid (disk w)) (session w)).
      destruct (list_conversations (unlinked cid (disk w))) as [|top rest].
      * by apply (create_new_conversation_store_ok w1).
      * destruct (switch_conversation_disk w1 (summary_id top)) as [-> | ->];
          [done|]. by apply store_ok_with_pointer.
    + rewrite (delete_conversation_inactive w cid Ha). simpl.
      by apply store_ok_unlinked.
  - done.
Qed.

(** Every store the application reaches from its first run, by any sequence
    of calls and session changes, satisfies the invariant. *)
Theorem reachable_store_ok (ops : list op) (s : session_state) :
  store_ok (disk (run ops (World NoDb s))).
Proof.
  unfold run.
  assert (∀ w, store_ok (disk w) →
               store_ok (disk (fold_left (λ w o, (step o w).1) ops w))) as H.
  { induction ops as [|o ops IH]; intros w Hw; [done|].
    simpl. apply IH. by apply step_store_ok. }
  apply H. split; [exact I|]. apply map_Forall_empty.
Qed.




(** ** Lifecycle: ids along a sequence of calls *)

Lemma conversation_files_with_pointer (cid : Z) (d : fs) :
  conversation_files (with_pointer cid d) = conversation_files d.
Proof. by destruct d as [|cur [m|]]. Qed.

Lemma conversation_files_bad_layout (d : fs) :
  ¬ layout_ok d → conversation_files d = ∅.
Proof. destruct d as [|cur [m|]]; simpl; [done| |done]. by intros []. Qed.

Lemma create_new_conversation_bad_layout (w : world) :
  ¬ layout_ok (disk w) →
  create_new_conversation w
  = (w, Raise (FileNotFoundError (conversation_path (next_id (disk w))))).
Proof.
  destruct w as [[|cur [m|]] s]; simpl; intros H; try (by destruct H).
  reflexivity.
Qed.

(** A call removes no conversation file but the one it is asked to
    delete. *)
Lemma step_keeps_file (o : op) (w : world) (k : Z) :
  is_Some (conversation_files (disk w) !! IntStem k) →
  o ≠ Delete k →
  is_Some (conversation_files (disk (step o w).1) !! IntStem k).
Proof.
  intros Hk Ho.
  destruct (decide (layout_ok (disk w))) as [Hl|Hl];
    [|rewrite (conversation_files_bad_layout _ Hl), lookup_empty in Hk;
      by destruct Hk].
  assert (∀ w1 : world,
            layout_ok (disk w1) →
            is_Some (conversation_files (disk w1) !! IntStem k) →
            is_Some (conversation_files (disk (create_new_conversation w1).1)
                       !! IntStem k)) as Hcreate.
  { intros w1 Hl1 Hk1. rewrite (create_new_conversation_run w1 Hl1). simpl.
    rewrite lookup_insert_is_Some. destruct (decide (IntStem (next_id (disk w1)) = IntStem k)); eauto. }
  assert (∀ (w1 : world) cid,
            is_Some (conversation_files (disk w1) !! IntStem k) →
            is_Some (conversation_files (disk (switch_conversation cid w1).1)
                       !! IntStem k)) as Hswitch.
  { intros w1 cid Hk1.
    destruct (switch_conversation_disk w1 cid) as [-> | ->]; [done|].
    by rewrite conversation_files_with_pointer. }
  destruct o as [| | |cid|cid|s]; simpl.
  - destruct (current_file (disk w)) as [p|] eqn:Hcur.
    + by rewrite (load_current_conversation_disk w p).
    + rewrite (load_current_conversation_first_run w Hl Hcur). simpl.
      rewrite lookup_insert_is_Some.
      destruct (decide (IntStem 1 = IntStem k)); eauto.
  - rewrite save_conversation_disk.
    destruct (disk w) as [|cur [m|]] eqn:Hd; try done. simpl in *.
    rewrite lookup_insert_is_Some.
    destruct (decide (IntStem (default 1 (conversation_id (session w)))
                      = IntStem k)); eauto.
  - by apply Hcreate.
  - by apply Hswitch.
  - assert (is_Some (conversation_files (unlinked cid (disk w)) !! IntStem k))
      as Hk1.
    { rewrite conversation_files_unlinked, lookup_delete_ne; [done|].
      intros [= ->]. by apply Ho. }
    destruct (decide (conversation_id (session w) = Some cid)) as [Ha|Ha].
    + rewrite (delete_conversation_active w cid Ha). simpl.
      set (w1 := World (unlinked cid (disk w)) (session w)).
      destruct (list_conversations (unlinked cid (disk w))) as [|top rest].
      * apply (Hcreate w1); [|done]. by destruct (disk w) as [|cur [m|]].
      * by apply (Hswitch w1).
    + by rewrite (delete_conversation_inactive w cid Ha).
  - done.
Qed.

(** The id a call assigns to the conversation it creates exceeds every id
    that has a file when the call starts, but for the file the call itself
    deletes; the created conversation has a file when the call ends. *)
Lemma created_by_above (o : op) (w : world) (i : Z) :
  created_by o w = Some i →
  (∀ k, k ∈ conversation_ids (disk w) → o ≠ Delete k → k < i)
  ∧ i ∈ conversation_ids (disk (step o w).1).
Proof.
  assert (∀ w1 : world,
            (create_new_conversation w1).2 = Rerun →
            conversation_id (session (create_new_conversation w1).1)
            = Some (next_id (disk w1))
            ∧ next_id (disk w1)
              ∈ conversation_ids (disk (create_new_conversation w1).1))
    as Hcreate.
  { intros w1. destruct (decide (layout_ok (disk w1))) as [Hl|Hl].
    - rewrite (create_new_conversation_run w1 Hl). simpl. intros _.
      split; [done|]. apply elem_of_conversation_ids. simpl.
      rewrite lookup_insert_eq. eauto.
    - by rewrite (create_new_conversation_bad_layout w1 Hl). }
  unfold created_by. destruct o as [| | |cid|cid|s]; simpl.
  - destruct (load_current_conversation w) as [w' []]; done.
  - destruct (save_conversation w) as [w' []]; done.
  - destruct (create_new_conversation w) as [w' r] eqn:Hrun.
    destruct r; try done. intros Hi.
    destruct (Hcreate w) as [Hid Hin]; [by rewrite Hrun|].
    rewrite Hrun in Hid, Hin. simpl in Hid, Hin.
    rewrite Hid in Hi. injection Hi as <-. split; [|done].
    intros k Hk _. by apply next_id_gt.
  - destruct (switch_conversation cid w) as [w' []]; done.
  - destruct (delete_conversation cid w) as [w' r] eqn:Hrun.
    destruct r; try done.
    destruct (list_conversations (unlinked cid (disk w))) as [|top rest] eqn:Hl;
      [|done].
    intros Hi.
    destruct (decide (conversation_id (session w) = Some cid)) as [Ha|Ha];
      [|by rewrite (delete_conversation_inactive w cid Ha) in Hrun].
    rewrite (delete_conversation_active w cid Ha) in Hrun. simpl in Hrun.
    rewrite Hl in Hrun.
    set (w1 := World (unlinked cid (disk w)) (session w)) in *.
    destruct (Hcreate w1) as [Hid Hin]; [by rewrite Hrun|].
    rewrite Hrun in Hid, Hin. simpl in Hid, Hin.
    rewrite Hid in Hi. injection Hi as <-. split; [|done].
    intros k Hk Hne. apply (next_id_gt (unlinked cid (disk w))).
    apply elem_of_conversation_ids. apply elem_of_conversation_ids in Hk.
    rewrite conversation_files_unlinked, lookup_delete_ne; [done|].
    intros [= ->]. by apply Hne.
  - done.
Qed.

Lemma op_delete_dec (o : op) (k : Z) : {o = Delete k} + {o ≠ Delete k}.
Proof.
  destruct o as [| | |cid|cid|s]; try (by right).
  destruct (decide (cid = k)) as [->|Hne]; [by left|right; congruence].
Qed.

Lemma step_has_id_from (o : op) (w : world) (b : Z) :
  has_id_from b w → keeps_highest_step o w → has_id_from b (step o w).1.
Proof.
  intros (k & Hb & Hk) Hsafe.
  assert (∀ k', b ≤ k' → k' ∈ conversation_ids (disk w) → o ≠ Delete k' →
                has_id_from b (step o w).1) as Hkeep.
  { intros k' Hb' Hk' Ho. exists k'. split; [done|].
    apply elem_of_conversation_ids. apply step_keeps_file; [|done].
    by apply elem_of_conversation_ids. }
  destruct (op_delete_dec o k) as [->|Ho]; [|by eapply Hkeep].
  apply Exists_exists in Hsafe as (k' & Hk' & Hlt); [|done].
  apply (Hkeep k'); [lia|done|]. intros [= <-]. lia.
Qed.

Lemma created_ids_above (ops : list op) (w : world) (b : Z) :
  has_id_from b w →
  keeps_highest ops w →
  Forall (λ i, b < i) (created_ids ops w)
  ∧ StronglySorted Z.lt (created_ids ops w).
Proof.
  revert w b. induction ops as [|o ops IH]; intros w b Hb Hsafe; simpl.
  - split; constructor.
  - destruct Hsafe as [Hstep Hsafe].
    pose proof (step_has_id_from o w b Hb Hstep) as Hb'.
    destruct (created_by o w) as [i|] eqn:Hi; [|by apply IH].
    destruct (created_by_above o w i Hi) as [Hgt Hin].
    assert (b < i) as Hbi.
    { destruct Hb as (k & Hbk & Hk).
      destruct (op_delete_dec o k) as [->|Ho].
      - apply Exists_exists in Hstep as (k' & Hk' & Hlt); [|done].
        assert (k' < i) by (apply Hgt; [done|]; intros [= <-]; lia). lia.
      - specialize (Hgt k Hk Ho). lia. }
    destruct (IH (step o w).1 i) as [Hall Hsorted]; [by exists i|done|].
    split.
    + constructor; [done|]. eapply Forall_impl; [exact Hall|].
      intros j Hj. simpl in Hj. lia.
    + by apply StronglySorted_cons.
Qed.

Lemma created_ids_sorted (ops : list op) (w : world) :
  keeps_highest ops w → StronglySorted Z.lt (created_ids ops w).
Proof.
  revert w. induction ops as [|o ops IH]; intros w Hsafe; simpl; [constructor|].
  destruct Hsafe as [Hstep Hsafe].
  destruct (created_by o w) as [i|] eqn:Hi; [|by apply IH].
  destruct (created_by_above o w i Hi) as [_ Hin].
  destruct (created_ids_above ops (step o w).1 i) as [Hall Hsorted];
    [by exists i|done|].
  by apply StronglySorted_cons.
Qed.

Lemma strictly_increasing_NoDup (l : list Z) :
  StronglySorted Z.lt l → NoDup l.
Proof.
  induction l as [|i l IH]; intros Hl; [constructor|].
  apply StronglySorted_cons in Hl as [Hall Hl].
  constructor; [|by apply IH].
  intros Hin. rewrite Forall_forall in Hall. specialize (Hall i Hin). lia.
Qed.

(** C1, as stated, fails.  On the first run, two creations give the ids 1
    and 2; deleting conversation 2 (the active one) switches back to 1; the
    next creation assigns 2 again: the ids 1, 2, 2 are not strictly
    increasing and the id of the deleted conversation is reused.  Likewise,
    deleting the only conversation, 1, makes [delete_conversation] create a
    new one at once, again with id 1. *)
Lemma create_new_reuses_deleted_id :
  created_ids [CreateNew; CreateNew; Delete 2; CreateNew] first_run = [1; 2; 2]
  ∧ conversation_ids
      (disk (run [CreateNew; CreateNew; Delete 2] first_run)) = [1]
  ∧ created_ids [CreateNew; Delete 1] first_run = [1; 1].
Proof. split_and!; vm_compute; reflexivity. Qed.

(** C1 (amended): [create_new_conversation] assigns the maximum of the ids
    of the files present in the store at creation time plus one, and 1 when
    there is none.  The new id is therefore strictly greater than every id
    present at creation time and collides with no existing record;
    creations that follow one another receive consecutive ids; and along
    every sequence of calls in which no deletion removes the file with the
    highest id, the ids of the created conversations are strictly
    increasing and none is assigned twice.  Nothing is remembered about
    deleted conversations: after two creations on the first run, deleting
    conversation 2 lets the next creation assign 2 again. *)
Theorem create_new_conversation_id (w : world) :
  layout_ok (disk w) →
  ∃ w' new_id,
    create_new_conversation w = (w', Rerun)
    ∧ conversation_id (session w') = Some new_id
    ∧ current_file (disk w') = Some (Json (Pointer (Some new_id)))
    ∧ new_id = max_default (conversation_ids (disk w)) 0 + 1
    ∧ (conversation_ids (disk w) = [] → new_id = 1)
    ∧ (∀ k, k ∈ conversation_ids (disk w) → k < new_id)
    ∧ conversation_files (disk w) !! IntStem new_id = None
    ∧ conversation_files (disk w')
      = <[IntStem new_id := Json (fresh_conversation new_id)]>
          (conversation_files (disk w))
    ∧ (∀ k : nat,
         created_ids (replicate k CreateNew) w
         = (λ i : nat, new_id + Z.of_nat i) <$> seq 0 k)
    ∧ (∀ ops,
         keeps_highest ops w →
         StronglySorted Z.lt (created_ids ops w) ∧ NoDup (created_ids ops w))
    ∧ created_ids [CreateNew; CreateNew; Delete 2; CreateNew] first_run
      = [1; 2; 2].
Proof.
  intros Hw. eexists _, (next_id (disk w)).
  split; [exact (create_new_conversation_run w Hw)|]. simpl.
  split_and!; try done.
  - apply next_id_empty.
  - apply next_id_gt.
  - apply next_id_fresh.
  - intros k. by apply created_ids_creations.
  - intros ops Hops. pose proof (created_ids_sorted ops w Hops) as Hsorted.
    split; [done|]. by apply strictly_increasing_NoDup.
Qed.

Lemma create_new_conversation_id_witness :
  layout_ok (disk store_with_gap)
  ∧ keeps_highest [Delete 1; CreateNew; Delete 3; CreateNew] store_with_gap
  ∧ created_ids [Delete 1; CreateNew; Delete 3; CreateNew] store_with_gap = [4; 5]
  ∧ ∃ w' new_id,
      create_new_conversation store_with_gap = (w', Rerun)
      ∧ conversation_id (session w') = Some new_id
      ∧ current_file (disk w') = Some (Json (Pointer (Some new_id)))
      ∧ new_id = max_default (conversation_ids (disk store_with_gap)) 0 + 1
      ∧ (conversation_ids (disk store_with_gap) = [] → new_id = 1)
      ∧ (∀ k, k ∈ conversation_ids (disk store_with_gap) → k < new_id)
      ∧ conversation_files (disk store_with_gap) !! IntStem new_id = None
      ∧ conversation_files (disk w')
        = <[IntStem new_id := Json (fresh_conversation new_id)]>
            (conversation_files (disk store_with_gap))
      ∧ (∀ k : nat,
           created_ids (replicate k CreateNew) store_with_gap
           = (λ i : nat, new_id + Z.of_nat i) <$> seq 0 k)
      ∧ (∀ ops,
           keeps_highest ops store_with_gap →
           StronglySorted Z.lt (created_ids ops store_with_gap)
           ∧ NoDup (created_ids ops store_with_gap))
      ∧ created_ids [CreateNew; CreateNew; Delete 2; CreateNew] first_run
        = [1; 2; 2].
Proof.
  split; [exact I|].
  split; [by apply (bool_decide_unpack _); vm_compute|].
  split; [vm_compute; reflexivity|].
  apply (create_new_conversation_id store_with_gap). exact I.
Defined.

(** * Properties of the script *)

(** ** Sound stores *)

Lemma complete_record_inv (st : stem) (f : file_data conversation) :
  complete_record st f →
  ∃ k n p ms, st = IntStem k
              ∧ f = Json (Conversation (Some k) (Some n) (Some p) (Some ms)).
Proof.
  destruct st as [k|t], f as [[[i|] [n|] [p|] [ms|]]|]; simpl; try done.
  intros ->. by exists k, n, p, ms.
Qed.

Lemma complete_record_lookup (m : gmap stem (file_data conversation)) (k : Z)
    (f : file_data conversation) :
  map_Forall complete_record m → m !! IntStem k = Some f →
  ∃ n p ms, f = Json (Conversation (Some k) (Some n) (Some p) (Some ms)).
Proof.
  intros Hm Hk. destruct (complete_record_inv _ _ (Hm _ _ Hk))
    as (k' & n & p & ms & Hst & ->).
  injection Hst as <-. by exists n, p, ms.
Qed.

Lemma sound_store_inv (d : fs) :
  sound_store d →
  ∃ p m, d = Db (Some (Json (Pointer (Some p)))) (Some m)
         ∧ map_Forall complete_record m ∧ is_Some (m !! IntStem p).
Proof.
  destruct d as [|[[[[p|]]|]|] [m|]]; simpl; try done.
  intros [Hm Hp]. by exists p, m.
Qed.

Lemma settled_inv (w : world) :
  settled w →
  ∃ p m, disk w = Db (Some (Json (Pointer (Some p)))) (Some m)
         ∧ map_Forall complete_record m ∧ is_Some (m !! IntStem p)
         ∧ conversation_id (session w) = Some p.
Proof.
  intros [Hs Hid]. destruct (sound_store_inv _ Hs) as (p & m & Hd & Hm & Hp).
  exists p, m. rewrite Hid, Hd. done.
Qed.

Lemma settled_intro (p : Z) (m : gmap stem (file_data conversation))
    (s : session_state) :
  map_Forall complete_record m → is_Some (m !! IntStem p) →
  conversation_id s = Some p →
  settled (World (Db (Some (Json (Pointer (Some p)))) (Some m)) s).
Proof. intros Hm Hp Hid. split; [by split|done]. Qed.

(** A change of the session that keeps [conversation_id] keeps the state
    settled. *)
Lemma settled_session (w : world) (s : session_state) :
  settled w → conversation_id s = conversation_id (session w) →
  settled (World (disk w) s).
Proof. intros [Hs Hid] Hc. split; [done|]. simpl. by rewrite Hc. Qed.

Lemma save_conversation_settled (w : world) :
  settled w →
  (save_conversation w).2 = Ok tt ∧ settled (save_conversation w).1
  ∧ session (save_conversation w).1 = session w.
Proof.
  intros Hw. destruct (settled_inv _ Hw) as (p & m & Hd & Hm & Hp & Hid).
  destruct w as [d s]. simpl in *. subst d.
  unfold save_conversation. rewrite save_conversation_with_run. simpl.
  rewrite Hid. simpl. split_and!; [done| |done].
  apply settled_intro; [|by rewrite lookup_insert_eq|done].
  apply map_Forall_insert_2; [|done]. simpl. by rewrite Hid.
Qed.

Lemma create_new_conversation_settled (w : world) :
  layout_ok (disk w) → map_Forall complete_record (conversation_files (disk w)) →
  (create_new_conversation w).2 = Rerun ∧ settled (create_new_conversation w).1.
Proof.
  intros Hl Hm. rewrite (create_new_conversation_run w Hl). simpl.
  split; [done|]. apply settled_intro; [|by rewrite lookup_insert_eq|done].
  by apply map_Forall_insert_2.
Qed.

(** On a store of complete records [switch_conversation] does nothing when
    the file is missing and otherwise moves pointer and session to it. *)
Lemma switch_conversation_complete (w : world) (cid : Z) :
  map_Forall complete_record (conversation_files (disk w)) →
  match conversation_files (disk w) !! IntStem cid with
  | None => switch_conversation cid w = (w, Ok tt)
  | Some f =>
      ∃ n p ms,
        f = Json (Conversation (Some cid) (Some n) (Some p) (Some ms))
        ∧ switch_conversation cid w
          = (World (with_pointer cid (disk w)) (loaded cid n ms p (session w)),
             Rerun)
  end.
Proof.
  intros Hm. destruct (conversation_files (disk w) !! IntStem cid) as [f|] eqn:E.
  - destruct (complete_record_lookup _ _ _ Hm E) as (n & p & ms & ->).
    exists n, p, ms. split; [done|].
    destruct w as [[|cur [m|]] s]; simpl in *; try done.
    unfold switch_conversation, conversation_exists, read_conversation,
      write_current, load_conversation_to_state; unfold_M; simpl.
    rewrite E, bool_decide_eq_true_2 by eauto. simpl. by rewrite E.
  - unfold switch_conversation, conversation_exists; unfold_M; simpl.
    rewrite E, bool_decide_eq_false_2 by (by intros [? ?]). by destruct w.
Qed.

Lemma switch_conversation_settled (w : world) (cid : Z) :
  settled w →
  settled (switch_conversation cid w).1
  ∧ ((switch_conversation cid w).2 = Ok tt
     ∨ (switch_conversation cid w).2 = Rerun).
Proof.
  intros Hw. destruct (settled_inv _ Hw) as (p & m & Hd & Hm & Hp & Hid).
  pose proof (switch_conversation_complete w cid) as H.
  rewrite Hd in H. simpl in H. specialize (H Hm).
  destruct (m !! IntStem cid) as [f|] eqn:E.
  - destruct H as (n & q & ms & -> & ->). simpl. split; [|by right].
    apply settled_intro; [done|by rewrite E|done].
  - rewrite H. simpl. split; [done|by left].
Qed.

Lemma complete_record_summary (d : fs) (r : summary) :
  map_Forall complete_record (conversation_files d) →
  r ∈ list_conversations d →
  is_Some (conversation_files d !! IntStem (summary_id r)).
Proof.
  intros Hm Hr. apply elem_of_list_conversations in Hr as (st & f & Hst & Hs).
  destruct (complete_record_inv _ _ (Hm _ _ Hst)) as (k & n & p & ms & -> & ->).
  simpl in Hs. injection Hs as <-. simpl. eauto.
Qed.

Lemma delete_conversation_settled (w : world) (cid : Z) :
  settled w → conversation_id (session w) = Some cid →
  (delete_conversation cid w).2 = Rerun ∧ settled (delete_conversation cid w).1.
Proof.
  intros Hw Hactive.
  destruct (settled_inv _ Hw) as (p & m & Hd & Hm & Hp & Hid).
  rewrite (delete_conversation_active w cid Hactive). simpl.
  set (w1 := World (unlinked cid (disk w)) (session w)).
  assert (map_Forall complete_record (conversation_files (disk w1))) as Hm1.
  { simpl. rewrite conversation_files_unlinked, Hd. simpl.
    by apply map_Forall_delete. }
  change (unlinked cid (disk w)) with (disk w1).
  destruct (list_conversations (disk w1)) as [|r rest] eqn:Hl.
  - apply create_new_conversation_settled; [|done].
    simpl. by rewrite Hd.
  - assert (is_Some (conversation_files (disk w1) !! IntStem (summary_id r)))
      as [f Hf].
    { apply complete_record_summary; [done|]. rewrite Hl. apply list_elem_of_here. }
    pose proof (switch_conversation_complete w1 (summary_id r) Hm1) as H.
    rewrite Hf in H. destruct H as (n & q & ms & -> & ->). simpl.
    split; [done|]. subst w1. simpl in Hf, Hm1 |- *.
    rewrite Hd in Hf, Hm1 |- *. simpl in Hf, Hm1 |- *.
    apply settled_intro; [done|by rewrite Hf|done].
Qed.

Lemma load_current_conversation_settled (w : world) :
  fresh_start w →
  (load_current_conversation w).2 = Ok tt
  ∧ settled (load_current_conversation w).1.
Proof.
  intros [Hid [Hd|Hs]].
  - rewrite (load_current_conversation_first_run w) by (by rewrite Hd).
    simpl. split; [done|].
    apply settled_intro; [|by rewrite lookup_insert_eq|done].
    rewrite Hd. simpl. apply map_Forall_insert_2; [done|apply map_Forall_empty].
  - destruct (sound_store_inv _ Hs) as (p & m & Hd & Hm & [f Hp]).
    destruct (complete_record_lookup _ _ _ Hm Hp) as (n & q & ms & ->).
    destruct w as [d s]. simpl in *. subst d.
    unfold load_current_conversation, conversation_exists, read_conversation,
      load_conversation_to_state; unfold_M; simpl.
    rewrite Hp, bool_decide_eq_true_2 by eauto. simpl. rewrite Hp. simpl.
    split; [done|]. apply settled_intro; [done|by rewrite Hp|done].
Qed.

(** [chatbot_reply] always returns a message of the assistant with a usage
    dictionary; it never touches the disk and changes no session key but
    [error_message]. *)
Lemma chatbot_reply_returns (client : request → client_result)
    (user_prompt : string) (memory : list message)
    (file_content : option string) (w : world) :
  ∃ reply banner,
    chatbot_reply client user_prompt memory file_content w
    = (World (disk w)
             (SessionState (conversation_id (session w))
                           (conversation_name (session w))
                           (messages (session w))
                           (chatbot_personality (session w))
                           (selected_model (session w)) banner),
       Ok reply)
    ∧ role reply = "assistant" ∧ is_Some (msg_usage reply).
Proof.
  destruct w as [d [i n ms p model err]].
  unfold chatbot_reply, try_except; unfold_M; simpl.
  destruct model as [model|]; simpl.
  - destruct (client _) as [description|r elapsed]; simpl.
    + by eexists _, _.
    + destruct (choices r) as [|c cs]; simpl; by eexists _, _.
  - by eexists _, _.
Qed.

(** ** Reasoning about the script *)

Lemma triple_ret {A} (x : A) (P : script_state → Prop) (Q : A → script_state → Prop)
    (E : exit → script_state → Prop) :
  (∀ a, P a → Q x a) → triple P (mret x) Q E.
Proof. intros H a Ha. by apply H. Qed.

Lemma triple_bind {A B} (m : Script A) (f : A → Script B) (P : script_state → Prop)
    (Q : A → script_state → Prop) (R : B → script_state → Prop)
    (E : exit → script_state → Prop) :
  triple P m Q E → (∀ x, triple (Q x) (f x) R E) → triple P (m ≫= f) R E.
Proof.
  intros Hm Hf a Ha. specialize (Hm a Ha).
  unfold mbind, Script_bind. destruct (m a) as [a' [x| | |e]]; try done.
  by apply Hf.
Qed.

Lemma triple_lift {A} (m : M A) (P : script_state → Prop) (Q : A → script_state → Prop)
    (E : exit → script_state → Prop) :
  (∀ a, P a →
     match m (script_world a) with
     | (w', Ok x) => Q x (with_world w' a)
     | (w', Rerun) => E ExitRerun (with_world w' a)
     | (w', Raise e) => E (ExitFail (Exn e)) (with_world w' a)
     end) →
  triple P (lift m) Q E.
Proof.
  intros H a Ha. specialize (H a Ha). unfold lift.
  by destruct (m (script_world a)) as [w' [x| |e]].
Qed.

Lemma triple_reads {A} (f : script_state → A) (P : script_state → Prop)
    (Q : A → script_state → Prop)
    (E : exit → script_state → Prop) :
  (∀ a, P a → Q (f a) a) → triple P (reads f) Q E.
Proof. intros H a Ha. by apply H. Qed.

Lemma triple_session_only {A} (m : M A) (u : user) :
  session_only m →
  triple settled_state (lift m) (λ _, settled_state) (settled_exit u).
Proof.
  intros Hm. apply triple_lift. intros a Ha.
  destruct (Hm (script_world a)) as (s & x & -> & Hid).
  by apply settled_session.
Qed.

Lemma session_only_gets {A} (f : world → A) : session_only (gets f).
Proof. intros [d s]. by exists s, (f (World d s)). Qed.

Lemma session_only_set_chatbot_personality (p : string) :
  session_only (set_chatbot_personality p).
Proof. intros [d s]. by eexists _, tt. Qed.

Lemma session_only_set_selected_model (model : string) :
  session_only (set_selected_model model).
Proof. intros [d s]. by eexists _, tt. Qed.

Lemma session_only_set_conversation_name (n : string) :
  session_only (set_conversation_name n).
Proof. intros [d s]. by eexists _, tt. Qed.

Lemma session_only_set_messages (ms : list message) :
  session_only (set_messages ms).
Proof. intros [d s]. by eexists _, tt. Qed.

Lemma session_only_chatbot_reply (client : request → client_result)
    (user_prompt : string) (memory : list message)
    (file_content : option string) :
  session_only (chatbot_reply client user_prompt memory file_content).
Proof.
  intros w.
  destruct (chatbot_reply_returns client user_prompt memory file_content w)
    as (reply & banner & -> & _). by eexists _, _.
Qed.

Lemma triple_save_conversation (u : user) :
  triple settled_state (lift save_conversation) (λ _, settled_state)
         (settled_exit u).
Proof.
  apply triple_lift. intros a Ha.
  destruct (save_conversation_settled _ Ha) as (Hr & Hs & _).
  destruct (save_conversation (script_world a)) as [w' r]. simpl in *. by subst r.
Qed.

Lemma triple_create_new_conversation (u : user) (Q : unit → script_state → Prop) :
  triple settled_state (lift create_new_conversation) Q (settled_exit u).
Proof.
  apply triple_lift. intros a Ha.
  destruct (settled_inv _ Ha) as (p & m & Hd & Hm & Hp & Hid).
  destruct (create_new_conversation_settled (script_world a)) as [Hr Hs].
  { by rewrite Hd. } { by rewrite Hd. }
  destruct (create_new_conversation (script_world a)) as [w' r]. simpl in *.
  subst r. by split.
Qed.

Lemma triple_delete_conversation (u : user) (cid : Z) (Q : unit → script_state → Prop) :
  triple (λ a, settled_state a ∧ conversation_id (session (script_world a)) = Some cid)
         (lift (delete_conversation cid)) Q (settled_exit u).
Proof.
  apply triple_lift. intros a [Ha Hid].
  destruct (delete_conversation_settled _ _ Ha Hid) as [Hr Hs].
  destruct (delete_conversation cid (script_world a)) as [w' r]. simpl in *.
  subst r. by split.
Qed.

Lemma triple_switch_conversation (u : user) (cid : Z) :
  triple settled_state (lift (switch_conversation cid)) (λ _, settled_state)
         (settled_exit u).
Proof.
  apply triple_lift. intros a Ha.
  destruct (switch_conversation_settled _ cid Ha) as [Hs [Hr|Hr]];
    destruct (switch_conversation cid (script_world a)) as [w' r]; simpl in *;
    subst r; [done|by split].
Qed.

Lemma triple_weaken_exit {A} (m : Script A) (P : script_state → Prop)
    (Q : A → script_state → Prop) (E E' : exit → script_state → Prop) :
  triple P m Q E' → (∀ k a, E' k a → E k a) → triple P m Q E.
Proof.
  intros Hm HE a Ha. specialize (Hm a Ha).
  destruct (m a) as [a' [x| | |e]]; try done; by apply HE.
Qed.

Lemma triple_render_sidebar (u : user) :
  triple settled_state (render_sidebar u) (λ _, settled_state) (settled_exit u).
Proof.
  unfold render_sidebar.
  eapply triple_bind; [apply triple_session_only, session_only_gets|].
  intros personality.
  eapply triple_bind;
    [apply triple_session_only, session_only_set_chatbot_personality|].
  intros ?.
  eapply triple_bind;
    [apply triple_session_only, session_only_set_selected_model|].
  intros ?.
  eapply (triple_bind _ _ _ (λ _, settled_state)).
  - apply triple_lift. intros a Ha. unfold getitem.
    destruct (_ !! _) as [pricing|] eqn:E; simpl; [done|].
    split; [done|]. intros [Hmodel _].
    by apply not_elem_of_list_to_map in E.
  - intros pricing.
    eapply (triple_bind _ _ _ (λ _, settled_state)); [by apply triple_reads|].
    intros rate.
    eapply triple_bind; [apply triple_session_only, session_only_gets|].
    intros ms. destruct (calculate_conversation_cost ms pricing).
    by apply triple_ret.
Qed.

Lemma index_is_Some {A} `{EqDecision A} (x : A) (l : list A) :
  x ∈ l → ∃ i, index x l = Some i ∧ (i < length l)%nat.
Proof.
  intros Hx. unfold index.
  destruct (list_find (λ y, y = x) l) as [[i y]|] eqn:E.
  - exists i. split; [done|]. apply list_find_Some in E as (Hi & _ & _).
    by eapply lookup_lt_Some.
  - apply list_find_None in E. rewrite Forall_forall in E.
    by destruct (E x Hx).
Qed.

Lemma index_lt {A} `{EqDecision A} (x : A) (l : list A) (i : nat) :
  index x l = Some i → (i < length l)%nat.
Proof.
  unfold index. destruct (list_find _ l) as [[j y]|] eqn:E; [|done].
  intros [= <-]. apply list_find_Some in E as (Hi & _ & _).
  by eapply lookup_lt_Some.
Qed.

Lemma triple_render_conversation_manager (u : user) :
  triple settled_state (render_conversation_manager u) (λ _, settled_state)
         (settled_exit u).
Proof.
  unfold render_conversation_manager.
  eapply triple_bind; [apply triple_session_only, session_only_gets|].
  intros name.
  eapply (triple_bind _ _ _ (λ _, settled_state)).
  { case_bool_decide; [|by apply triple_ret].
    apply triple_lift. intros a Ha.
    unfold mbind at 1, M_bind at 1.
    destruct (session_only_set_conversation_name
                (text_input u (default EmptyString name)) (script_world a))
      as (s & x & Hset & Hid).
    rewrite Hset. clear Hset x.
    pose proof (settled_session _ s Ha Hid) as Hs.
    destruct (save_conversation_settled _ Hs) as (Hr & Hs' & _).
    destruct (save_conversation _) as [w' r]. simpl in *. by subst r. }
  intros ?.
  eapply (triple_bind _ _ _ (λ _, settled_state)).
  { destruct (new_button u); [apply triple_create_new_conversation|].
    by apply triple_ret. }
  intros ?.
  eapply (triple_bind _ _ _
            (λ c a, settled_state a
                    ∧ conversation_id (session (script_world a)) = Some c)).
  { apply triple_lift. intros a Ha. simpl.
    destruct (settled_inv _ Ha) as (p & m & Hd & Hm & Hp & Hid).
    destruct a as [[d s] ? ? ?]. simpl in *. rewrite Hid. by split. }
  intros current_id.
  eapply (triple_bind _ _ _ (λ _, settled_state)).
  { destruct (delete_button u); [apply triple_delete_conversation|].
    apply triple_ret. by intros a [Ha _]. }
  intros ?.
  eapply triple_bind; [apply triple_session_only, session_only_gets|].
  intros conversations.
  destruct (option_label <$> take 10 conversations) as [|label labels] eqn:El;
    [by apply triple_ret|].
  set (names := label :: labels) in *.
  set (ids := summary_id <$> take 10 conversations).
  assert (length ids = length names) as Hlen.
  { unfold ids. rewrite <- El. by rewrite !length_fmap. }
  destruct (index _ names) as [i|] eqn:Ei.
  - apply index_lt in Ei. rewrite <- Hlen in Ei.
    destruct (lookup_lt_is_Some_2 ids i Ei) as [selected_id ->].
    case_bool_decide; [apply triple_switch_conversation|by apply triple_ret].
  - intros a Ha. simpl. split; [done|]. intros [_ Hbox].
    destruct (index_is_Some
                (conversation_selectbox u names
                   (default 0%nat (index current_id ids))) names)
      as (i & Hi & _); [|congruence].
    apply Hbox. destruct (index current_id ids) as [j|] eqn:Ej; simpl.
    + apply index_lt in Ej. rewrite Hlen in Ej. exact Ej.
    + unfold names. simpl. lia.
Qed.

Lemma session_only_clear_error_message : session_only clear_error_message.
Proof. intros [d s]. by eexists _, tt. Qed.

Lemma triple_chat_turn (client : request → client_result) (text : string)
    (u : user) (Q : unit → script_state → Prop) :
  triple settled_state (chat_turn client text) Q (settled_exit u).
Proof.
  unfold chat_turn.
  eapply triple_bind; [apply triple_session_only, session_only_gets|].
  intros held.
  eapply (triple_bind _ _ _ (λ _, settled_state)).
  { destruct held; [|by apply triple_ret].
    apply triple_session_only, session_only_set_messages. }
  intros ?.
  eapply (triple_bind _ _ _ (λ _, settled_state)); [by apply triple_reads|].
  intros file_content.
  eapply triple_bind; [apply triple_session_only, session_only_chatbot_reply|].
  intros response.
  eapply triple_bind; [apply triple_session_only, session_only_set_messages|].
  intros ?.
  eapply triple_bind; [apply triple_save_conversation|].
  intros ?. apply triple_lift. intros a Ha. by split.
Qed.

Lemma triple_render_main_chat (client : request → client_result) (u : user) :
  triple settled_state (render_main_chat client u) (λ _, settled_state)
         (settled_exit u).
Proof.
  unfold render_main_chat.
  eapply triple_bind; [apply triple_session_only, session_only_gets|].
  intros shown.
  eapply (triple_bind _ _ _ (λ _, settled_state)).
  { destruct shown as [banner|]; [|by apply triple_ret].
    destruct (close_error_button u); [|by apply triple_ret].
    apply triple_lift. intros a Ha. unfold mbind, M_bind.
    destruct (session_only_clear_error_message (script_world a))
      as (s & x & -> & Hid).
    split; [|done]. by apply settled_session. }
  intros ?.
  eapply (triple_bind _ _ _ (λ _, settled_state)).
  { destruct (file_uploader u) as [f|]; [|by apply triple_ret].
    destruct (process_uploaded_file (Some f)) as [[|c t]|];
      try (by apply triple_ret).
    by intros a Ha. }
  intros ?.
  destruct (chat_input u) as [[|c t]|]; try (by apply triple_ret).
  apply triple_chat_turn.
Qed.

(** One run of the script from a state between two runs: it stops before
    touching the store, or it leaves a settled state; it only raises when a
    widget returns none of its options. *)
Lemma triple_main (env : gmap string string) (h : http)
    (openai : string → request → client_result) (u : user) (w0 : world) :
  in_service w0 →
  triple (λ a, script_world a = w0) (main env h openai u) (λ _, settled_state)
         (λ k a, match k with
                 | ExitStop => script_world a = w0 ∧ api_key_missing env
                 | _ => settled_exit u k a
                 end).
Proof.
  intros Hw0. unfold main. destruct (get_usd_to_pln_rate h) as [rate rate_date].
  eapply (triple_bind _ _ _ (λ _ a, script_world a = w0)); [by intros a Ha|].
  intros ?.
  eapply (triple_bind _ _ _
            (λ env' a, script_world a = w0 ∧ is_Some (env' !! "OPENAI_API_KEY"))).
  { unfold load_environment.
    unfold api_key_missing.
    destruct (env !! _) as [[|c t]|] eqn:E; intros a Ha; simpl;
      first [by split; [|right] | by split; [|left]
            | split; [done|]; rewrite E; eauto]. }
  intros env'.
  eapply (triple_bind _ _ _ (λ _ a, script_world a = w0)).
  { apply triple_lift. intros a [Ha [key Hkey]]. rewrite Hkey. done. }
  intros api_key.
  eapply (triple_bind _ _ _ (λ i a, script_world a = w0
                                    ∧ i = conversation_id (session w0))).
  { apply triple_lift. intros a Ha. simpl. by rewrite Ha. }
  intros i.
  eapply (triple_bind _ _ _ (λ _, settled_state)).
  { destruct i as [i|].
    - apply triple_ret. intros a [Ha Hi]. unfold settled_state. rewrite Ha.
      destruct Hw0 as [Hs|[Hnone _]]; [done|congruence].
    - apply triple_lift. intros a [Ha Hi]. rewrite Ha.
      destruct Hw0 as [Hs|Hf].
      + destruct (settled_inv _ Hs) as (p & m & _ & _ & _ & Hid). congruence.
      + destruct (load_current_conversation_settled _ Hf) as [Hr Hs].
        destruct (load_current_conversation w0) as [w' r]. simpl in *.
        by subst r. }
  intros ?.
  eapply triple_weaken_exit; [|by intros [| |e] a Hk; try done; destruct Hk].
  eapply triple_bind; [apply triple_render_sidebar|]. intros ?.
  eapply triple_bind; [apply triple_render_conversation_manager|]. intros ?.
  apply triple_render_main_chat.
Qed.

(** X3: as long as every write to disk completes, the store stays sound
    whatever the users do.  The script runs of the model are those in which
    each [json.dump] writes its whole text.  After any sequence of such
    runs (with any environment, any answer of the exchange-rate service and
    of the model client, any values returned by the widgets) and of new
    browser sessions, starting before [db/] exists, either no conversation
    is loaded yet and the store is absent or sound, or every file of
    [db/conversations/] is a complete record stored under its own id,
    [current.json] names one of them and the session works on that one.
    The condition is needed: a [save_conversation] whose write fails
    partway leaves a state that is not of this kind. *)
Theorem script_runs_keep_store_sound (events : list event)
    (content date : option string) (rate : float) :
  in_service
    (script_world
       (after_events events (ScriptState first_run content date rate)))
  ∧ in_service saved_world
  ∧ bool_decide
      (in_service (save_conversation_with FailsPartway saved_world).1)
    = false.
Proof.
  split; [|split; [by apply (bool_decide_unpack _); vm_compute
                  |by vm_compute]].
  unfold after_events.
  assert (∀ a, in_service (script_world a) →
               in_service (script_world (fold_left (λ a e, after_event e a) events a)))
    as H.
  { induction events as [|e events IH]; intros a Ha; [done|].
    simpl. apply IH. destruct e as [[env h openai u]|]; simpl.
    - pose proof (triple_main env h openai u (script_world a) Ha a eq_refl) as H.
      destruct (main env h openai u a) as [a' [x| | |e]]; simpl.
      + by left.
      + left. by destruct H.
      + destruct H as [H _]. by rewrite H.
      + left. by destruct H.
    - right. split; [done|]. destruct Ha as [[Hs _]|[_ Hd]]; [by right|done]. }
  apply H. right. by split; [|left].
Qed.

(** X4: a script run whose writes complete does not fail.  The script of
    the model is the one in which each write to disk completes and the
    calls that only draw succeed.  From a state between two runs, with
    widgets that return one of the options they offer, that [main] stops
    without touching the store or the session (when the API key is
    missing), or it returns or reruns in a settled state: no access to a
    file, a dictionary key or a list index of the script raises. *)
Theorem main_does_not_raise (env : gmap string string) (h : http)
    (openai : string → request → client_result) (u : user) (a : script_state) :
  in_service (script_world a) → offers_options u →
  ((main env h openai u a).2 = Stopped
   ∧ script_world (main env h openai u a).1 = script_world a)
  ∨ (((main env h openai u a).2 = Done tt ∨ (main env h openai u a).2 = Reran)
     ∧ settled (script_world (main env h openai u a).1)).
Proof.
  intros Ha Hu.
  pose proof (triple_main env h openai u (script_world a) Ha a eq_refl) as H.
  destruct (main env h openai u a) as [a' [[]| | |e]]; simpl.
  - right. split; [by left|done].
  - right. split; [by right|]. by destruct H.
  - left. by destruct H.
  - destruct H as [_ H]. by destruct H.
Qed.

(** ** A chat turn *)

Lemma last_20_snoc {A} (l : list A) (x : A) :
  last_20 (l ++ [x]) = drop (length l - 19) l ++ [x].
Proof.
  unfold last_20. rewrite length_app. simpl.
  replace (length l + 1 - 20)%nat with (length l - 19)%nat by lia.
  rewrite drop_app_le by lia. done.
Qed.

(** X5: the request of a chat turn.  With a model selected and
    [db/conversations/] present, the turn is decided by the answer of the
    client to one request, written out in the statement: the system
    message (the personality, followed by the uploaded document when there
    is one), the role and content of the last 19 earlier messages, and the
    new user message twice, once as the last message of the history window
    and once as the prompt, with temperature 1 and at most 1000 completion
    tokens.  The message appended to the history after the user's, the
    error message of the session and the record saved are built from that
    answer, and the turn ends by [st.rerun()]. *)
Theorem chat_turn_request (client : request → client_result) (text : string)
    (document date : option string) (rate : float)
    (cur : option (file_data pointer))
    (m : gmap stem (file_data conversation)) (s : session_state)
    (model : string) :
  selected_model s = Some model →
  let personality := default DEFAULT_PERSONALITY (chatbot_personality s) in
  let earlier := default [] (messages s) in
  let sent :=
    Request model
            ([("system",
               match document with
               | Some (String a t) =>
                   personality +:+ "

Otrzymałeś również następujący dokument do analizy:

" +:+ String a t
               | _ => personality
               end)]
             ++ map (λ m, (role m, content m)) (drop (length earlier - 19) earlier)
             ++ [("user", text); ("user", text)])
            1 1000 in
  let answer :=
    match client sent with
    | Returns r elapsed =>
        match choices r with
        | c :: _ =>
            (Message "assistant" (reply_content c)
                     (Some (usage_of (response_usage r) elapsed)),
             error_message s)
        | [] =>
            (Message "assistant" (error_content "list index out of range")
                     (Some empty_usage),
             Some (error_banner "list index out of range"))
        end
    | Fails d =>
        (Message "assistant" (error_content d) (Some empty_usage),
         Some (error_banner d))
    end in
  let s' := SessionState (conversation_id s) (conversation_name s)
              (Some (earlier ++ [Message "user" text None; answer.1]))
              (chatbot_personality s) (selected_model s) answer.2 in
  chat_turn client text (ScriptState (World (Db cur (Some m)) s) document date rate)
  = (ScriptState
       (World (Db cur (Some (<[IntStem (default 1 (conversation_id s))
                              := Json (conversation_of_session s')]> m)))
              s')
       document date rate,
     Reran).
Proof.
  destruct s as [i n ms p model' err]. simpl. intros ->.
  unfold chat_turn, lift, reads, set_messages, chatbot_reply, request_of,
    try_except, system_content, document_preamble.
  unfold mbind, Script_bind, M_bind, mret, Script_ret, M_ret, gets,
    set_session, rerun, raise.
  destruct ms as [ms|]; cbn -[save_conversation last_20 app];
    rewrite last_20_snoc, map_app, <- !app_assoc; cbn -[save_conversation app].
  all: destruct (client _) as [d|r elapsed]; cbn -[save_conversation app];
    [|destruct (choices r) as [|c cs]; cbn -[save_conversation app]].
  all: unfold save_conversation; rewrite save_conversation_with_run;
    cbn -[app]; unfold conversation_of_session; cbn -[app];
    by rewrite <- ?app_assoc.
Qed.

(** X6: what a chat turn leaves.  When [db/conversations/] exists, a turn
    ends by [st.rerun()]; the history has grown by exactly the user message
    and one message of the assistant carrying a usage dictionary, also when
    the call of the model failed; no other session key changed but
    [error_message]; the record of the conversation on disk is the one
    built from that session, while [current.json], the other files and the
    uploaded document are untouched. *)
Theorem chat_turn_appends_and_saves (client : request → client_result)
    (text : string) (content date : option string) (rate : float)
    (cur : option (file_data pointer))
    (m : gmap stem (file_data conversation)) (s : session_state) :
  ∃ reply banner,
    let s' := SessionState (conversation_id s) (conversation_name s)
                (Some (default [] (messages s)
                       ++ [Message "user" text None; reply]))
                (chatbot_personality s) (selected_model s) banner in
    chat_turn client text (ScriptState (World (Db cur (Some m)) s) content date rate)
    = (ScriptState (World (Db cur (Some (<[IntStem (default 1 (conversation_id s))
                                   := Json (conversation_of_session s')]> m)))
                  s')
           content date rate,
       Reran)
    ∧ role reply = "assistant" ∧ is_Some (msg_usage reply).
Proof.
  destruct s as [i n ms p model err].
  set (history := default [] ms ++ [Message "user" text None]).
  set (s1 := SessionState i n (if ms is Some _ then Some history else None)
                          p model err).
  destruct (chatbot_reply_returns client text (last_20 history) content
              (World (Db cur (Some m)) s1))
    as (reply & banner & Hreply & Hrole & Husage).
  exists reply, banner. split; [|done].
  unfold chat_turn, lift, reads, set_messages.
  unfold mbind, Script_bind, M_bind, mret, Script_ret, M_ret, gets,
    set_session, rerun.
  subst s1 history.
  destruct ms as [ms|];
    cbn -[chatbot_reply save_conversation last_20 app];
    cbn -[chatbot_reply last_20 app] in Hreply;
    rewrite Hreply; cbn -[save_conversation app];
    unfold save_conversation; rewrite save_conversation_with_run;
    cbn -[app]; unfold conversation_of_session; cbn -[app];
    by rewrite <- app_assoc.
Qed.

(** ** The conversation manager without user action *)



Lemma index_lookup {A} `{EqDecision A} (x : A) (l : list A) (i : nat) :
  index x l = Some i → l !! i = Some x.
Proof.
  unfold index. destruct (list_find _ l) as [[j y]|] eqn:E; [|done].
  intros [= <-]. by apply list_find_Some in E as (Hi & -> & _).
Qed.

(** The manager when the user touches nothing: it switches to the
    conversation whose label the list returns, unless that is the active
    one. *)
Lemma render_conversation_manager_no_action (u : user) (a : script_state)
    (name label : string) (i : nat) (selected_id : Z) :
  let w := script_world a in
  let current_id := default 1 (conversation_id (session w)) in
  let shown := take 10 (list_conversations (disk w)) in
  no_action u →
  conversation_name (session w) = Some name →
  (option_label <$> shown)
    !! default 0%nat (index current_id (summary_id <$> shown)) = Some label →
  index label (option_label <$> shown) = Some i →
  (summary_id <$> shown) !! i = Some selected_id →
  render_conversation_manager u a
  = if bool_decide (selected_id ≠ current_id)
    then lift (switch_conversation selected_id) a
    else (a, Done tt).
Proof.
  intros w current_id shown (Hname & Hnew & Hdelete & Hbox) Hn Hlabel Hi Hid.
  unfold render_conversation_manager.
  destruct a as [[d s] content date rate]. simpl in w, current_id, shown, Hn.
  unfold lift, gets. unfold mbind, Script_bind, mret, Script_ret. simpl.
  rewrite Hn. simpl. rewrite Hname.
  rewrite bool_decide_eq_false_2 by (by intros []).
  rewrite Hnew, Hdelete. simpl.
  fold current_id. fold shown.
  destruct (option_label <$> shown) as [|l ls] eqn:El; [done|].
  rewrite (Hbox _ _ _ Hlabel), Hi, Hid.
  by case_bool_decide.
Qed.

(** ** Labels of the conversation list *)

Lemma char_free_app (c : ascii) (s t : string) :
  char_free c (s +:+ t) ↔ char_free c s ∧ char_free c t.
Proof. induction s as [|x s IH]; simpl; [tauto|]. rewrite IH. tauto. Qed.

Lemma pretty_N_go_char_free (c : ascii) (x : N) (s : string) :
  (∀ d, pretty_N_char d ≠ c) → char_free c s → char_free c (pretty_N_go x s).
Proof.
  intros Hc. revert s. induction (N.lt_wf_0 x) as [x _ IH]. intros s Hs.
  assert (x = 0 ∨ 0 < x)%N as [->|Hx] by lia; [by rewrite pretty_N_go_0|].
  rewrite pretty_N_go_step by done. apply IH; [by apply N.div_lt|].
  simpl. by split.
Qed.

Lemma pretty_N_char_free (c : ascii) (x : N) :
  (∀ d, pretty_N_char d ≠ c) → char_free c (pretty x).
Proof.
  intros Hc. unfold pretty, pretty_N. case_decide.
  - simpl. split; [apply (Hc 0%N)|done].
  - by apply pretty_N_go_char_free.
Qed.

Lemma pretty_Z_char_free (c : ascii) (z : Z) :
  (∀ d, pretty_N_char d ≠ c) → c ≠ "-"%char → char_free c (pretty z).
Proof.
  intros Hc Hdash. destruct z as [|p|p]; unfold pretty, pretty_Z.
  - simpl. split; [apply (Hc 0%N)|done].
  - by apply pretty_N_char_free.
  - simpl. split; [done|]. by apply pretty_N_char_free.
Qed.

Lemma not_a_digit (c : ascii) :
  ((nat_of_ascii c <? 48) || (57 <? nat_of_ascii c))%nat = true →
  ∀ d, pretty_N_char d ≠ c.
Proof.
  intros Hc d <-. unfold pretty_N_char in Hc.
  repeat case_match; vm_compute in Hc; discriminate.
Qed.

(** Two texts that agree up to and after the first [c]. *)
Lemma cut_at_first (c : ascii) (p1 p2 r1 r2 : string) :
  char_free c p1 → char_free c p2 →
  p1 +:+ String c r1 = p2 +:+ String c r2 → p1 = p2 ∧ r1 = r2.
Proof.
  revert p2. induction p1 as [|x p1 IH]; intros [|y p2]; simpl.
  - by intros _ _ [= ->].
  - by intros _ [Hy _] [= -> _].
  - by intros [Hx _] _ [= -> _].
  - intros [_ H1] [_ H2] [= -> H]. by destruct (IH _ H1 H2 H) as [-> ->].
Qed.

(** Two texts that agree up to and after the last [c]. *)
Lemma cut_at_last (c : ascii) (s1 s2 t1 t2 : string) :
  char_free c t1 → char_free c t2 →
  s1 +:+ String c t1 = s2 +:+ String c t2 → s1 = s2 ∧ t1 = t2.
Proof.
  intros H1 H2. revert s2. induction s1 as [|x s1 IH]; intros [|y s2]; simpl.
  - by intros [= ->].
  - intros [= <- ->]. apply char_free_app in H1 as [_ [H1 _]]. done.
  - intros [= -> <-]. apply char_free_app in H2 as [_ [H2 _]]. done.
  - intros [= -> H]. by destruct (IH _ H) as [-> ->].
Qed.

Lemma option_label_id (x y : summary) :
  option_label x = option_label y → summary_id x = summary_id y.
Proof.
  unfold option_label. intros H.
  assert (∀ z, char_free "("%char
                 ("id: " +:+ pretty (summary_id z) +:+ ", msg: "
                  +:+ pretty (message_count z) +:+ ")")) as Hfree.
  { intros z. rewrite !char_free_app. simpl. split_and!; try done.
    - apply pretty_Z_char_free; [by apply not_a_digit|done].
    - by apply pretty_N_char_free, not_a_digit. }
  assert (∀ n rest : string,
            n +:+ " (id: " +:+ rest
            = (n +:+ " ") +:+ String "("%char ("id: " +:+ rest)) as Hassoc.
  { intros n rest. induction n as [|c n IH]; [reflexivity|].
    change (String c (n +:+ " (id: " +:+ rest)
            = String c ((n +:+ " ") +:+ String "("%char ("id: " +:+ rest))).
    by rewrite IH. }
  rewrite !Hassoc in H.
  apply cut_at_last in H as [_ H]; [|apply Hfree..].
  simpl in H. injection H as H.
  apply (cut_at_first ","%char) in H as [H _].
  - by apply (inj pretty) in H.
  - apply pretty_Z_char_free; [by apply not_a_digit|done].
  - apply pretty_Z_char_free; [by apply not_a_digit|done].
Qed.

(** Rendering the conversation manager without touching it changes
    nothing, as long as the active conversation is among the ten listed. *)
Lemma render_conversation_manager_idle (u : user) (a : script_state)
    (name : string) :
  let w := script_world a in
  let current_id := default 1 (conversation_id (session w)) in
  no_action u →
  conversation_name (session w) = Some name →
  current_id ∈ summary_id <$> take 10 (list_conversations (disk w)) →
  render_conversation_manager u a = (a, Done tt).
Proof.
  intros w current_id Hu Hname Hin.
  set (shown := take 10 (list_conversations (disk w))) in *.
  destruct (index_is_Some _ _ Hin) as (idx & Hidx & Hlt).
  rewrite length_fmap in Hlt.
  destruct (lookup_lt_is_Some_2 shown idx Hlt) as [active Hactive].
  assert (summary_id active = current_id) as Hid.
  { apply index_lookup in Hidx. rewrite list_lookup_fmap, Hactive in Hidx.
    by injection Hidx. }
  assert (option_label active ∈ option_label <$> shown) as Hlabel.
  { apply list_elem_of_fmap. exists active. split; [done|].
    by eapply list_elem_of_lookup_2. }
  destruct (index_is_Some _ _ Hlabel) as (i & Hi & Hilt).
  rewrite length_fmap in Hilt.
  destruct (lookup_lt_is_Some_2 shown i Hilt) as [found Hfound].
  assert (summary_id found = current_id) as Hsame.
  { rewrite <- Hid. apply option_label_id.
    apply index_lookup in Hi. rewrite list_lookup_fmap, Hfound in Hi.
    by injection Hi. }
  rewrite (render_conversation_manager_no_action u a name (option_label active)
             i current_id); try done.
  - by rewrite bool_decide_eq_false_2 by (by intros []).
  - fold w current_id shown. rewrite Hidx. simpl.
    by rewrite list_lookup_fmap, Hactive.
  - fold w shown. by rewrite list_lookup_fmap, Hfound, <- Hsame.
Qed.


(** ** Renaming *)

Lemma create_new_conversation_keeps_record (w : world) (k : Z)
    (f : file_data conversation) :
  layout_ok (disk w) →
  conversation_files (disk w) !! IntStem k = Some f →
  conversation_files (disk (create_new_conversation w).1) !! IntStem k = Some f.
Proof.
  intros Hl Hk. rewrite (create_new_conversation_run w Hl). simpl.
  rewrite lookup_insert_ne; [done|].
  intros [= <-]. by rewrite next_id_fresh in Hk.
Qed.

Lemma switch_conversation_files (w : world) (cid : Z) :
  conversation_files (disk (switch_conversation cid w).1)
  = conversation_files (disk w).
Proof.
  destruct (switch_conversation_disk w cid) as [->| ->]; [done|].
  apply conversation_files_with_pointer.
Qed.

(** X9: a new name is written through.  In a settled state, when the name
    field returns a text that differs from the name of the active
    conversation and the delete button is not pressed, the record of that
    conversation on disk carries the new name when the manager is left,
    whatever else the user did in the same run (a new conversation, a
    switch) and whatever way the manager is left. *)
Theorem render_conversation_manager_renames (u : user) (a : script_state)
    (active : Z) (new_name : string) :
  let s := session (script_world a) in
  settled (script_world a) →
  conversation_id s = Some active →
  text_input u (default EmptyString (conversation_name s)) = new_name →
  Some new_name ≠ conversation_name s →
  delete_button u = false →
  conversation_files (disk (script_world (render_conversation_manager u a).1))
    !! IntStem active
  = Some (Json (Conversation (Some active) (Some new_name)
                  (Some (default DEFAULT_PERSONALITY (chatbot_personality s)))
                  (Some (default [] (messages s))))).
Proof.
  intros s Ha Hactive Hinput Hnew Hdelete.
  set (record := Json (Conversation (Some active) (Some new_name)
                  (Some (default DEFAULT_PERSONALITY (chatbot_personality s)))
                  (Some (default [] (messages s))))).
  set (P := λ a' : script_state,
              settled (script_world a')
              ∧ conversation_files (disk (script_world a')) !! IntStem active
                = Some record).
  assert (triple (λ a', a' = a) (render_conversation_manager u)
                 (λ _, P) (λ _, P)) as H.
  { unfold render_conversation_manager.
    eapply (triple_bind _ _ _ (λ name a', a' = a ∧ name = conversation_name s)).
    { apply triple_lift. intros a' ->. simpl. split; [by destruct a|done]. }
    intros name.
    eapply (triple_bind _ _ _ (λ _, P)).
    { intros a' [-> ->].
      rewrite Hinput, bool_decide_eq_true_2 by done.
      destruct (settled_inv _ Ha) as (p & m & Hd & Hm & Hp & Hid).
      destruct a as [[d s0] content date rate]. simpl in *. subst d s.
      unfold lift, set_conversation_name, save_conversation; unfold_M.
      cbn -[save_conversation_with].
      rewrite save_conversation_with_run. simpl.
      assert (p = active) as -> by congruence.
      rewrite Hid. simpl. split.
      - apply settled_intro; [|by rewrite lookup_insert_eq|done].
        by apply map_Forall_insert_2.
      - simpl. by rewrite lookup_insert_eq. }
    intros ?.
    eapply (triple_bind _ _ _ (λ _, P)).
    { destruct (new_button u); [|by apply triple_ret].
      apply triple_lift. intros a' [Hs Hf].
      destruct (settled_inv _ Hs) as (p & m & Hd & Hm & Hp & Hid).
      assert (layout_ok (disk (script_world a'))) as Hl by (by rewrite Hd).
      destruct (create_new_conversation_settled (script_world a')) as [Hr Hs'];
        [done|by rewrite Hd|].
      pose proof (create_new_conversation_keeps_record _ _ _ Hl Hf) as Hk.
      destruct (create_new_conversation (script_world a')) as [w' r].
      simpl in *. by subst r. }
    intros ?.
    eapply (triple_bind _ _ _ (λ _, P)); [by apply triple_lift|].
    intros current_id. rewrite Hdelete.
    eapply (triple_bind _ _ _ (λ _, P)); [by apply triple_ret|].
    intros ?.
    eapply (triple_bind _ _ _ (λ _, P)); [by apply triple_lift|].
    intros conversations.
    destruct (option_label <$> take 10 conversations) as [|label labels];
      [by apply triple_ret|].
    destruct (index _ _) as [i|]; [|by intros a' Ha'].
    destruct (_ !! i) as [selected_id|]; [|by intros a' Ha'].
    case_bool_decide; [|by apply triple_ret].
    apply triple_lift. intros a' [Hs Hf].
    destruct (switch_conversation_settled _ selected_id Hs) as [Hs' Hr].
    pose proof (switch_conversation_files (script_world a') selected_id) as Hk.
    destruct (switch_conversation selected_id (script_world a')) as [w' r].
    simpl in *. rewrite <- Hk in Hf. by destruct Hr; subst r. }
  specialize (H a eq_refl).
  destruct (render_conversation_manager u a) as [a' [x| | |e]]; simpl;
    by destruct H.
Qed.

(** X10: what is saved is what a new browser session loads.  In a settled
    state, after [save_conversation], [load_current_conversation] from a
    session without [conversation_id] changes nothing on disk and loads
    the id, name, messages and personality the saving session had. *)
Theorem save_then_load_current_conversation (w : world) (fresh : session_state) :
  settled w →
  let saved := conversation_of_session (session w) in
  let d := disk (save_conversation w).1 in
  load_current_conversation (World d fresh)
  = (World d (SessionState (conversation_id (session w))
                           (conv_name saved) (conv_messages saved)
                           (conv_chatbot_personality saved)
                           (selected_model fresh) (error_message fresh)),
     Ok tt).
Proof.
  intros Hw. destruct (settled_inv _ Hw) as (p & m & Hd & Hm & Hp & Hid).
  destruct w as [d s]. simpl in *. subst d.
  unfold save_conversation. rewrite save_conversation_with_run. simpl.
  rewrite Hid. simpl.
  unfold load_current_conversation, conversation_exists, read_conversation,
    load_conversation_to_state; unfold_M; simpl.
  rewrite lookup_insert_eq, bool_decide_eq_true_2 by eauto. simpl.
  rewrite lookup_insert_eq. simpl. by rewrite Hid.
Qed.

(** ** A store without its directory of conversations *)

Lemma step_bad_layout (o : op) (cur : option (file_data pointer))
    (s : session_state) :
  disk (step o (World (Db cur None) s)).1 = Db cur None.
Proof.
  destruct o as [| | |cid|cid|s']; simpl; try done.
  - unfold load_current_conversation, write_conversation, conversation_exists,
      load_conversation_to_state; unfold_M; simpl.
    by destruct cur as [[[[cid|]]|]|].
  - destruct (decide (conversation_id s = Some cid)) as [Hactive|Hactive].
    + by rewrite delete_conversation_active.
    + by rewrite delete_conversation_inactive.
Qed.

(** X11: a store without [db/conversations/] is never repaired.  When
    [db/] exists without its directory of conversations, no sequence of
    calls of the lifecycle functions changes anything on disk, with any
    session changes in between; [save_conversation] and
    [create_new_conversation] raise [FileNotFoundError] there. *)
Theorem missing_conversations_directory_stays_missing (ops : list op)
    (cur : option (file_data pointer)) (s : session_state) :
  let w := run ops (World (Db cur None) s) in
  disk w = Db cur None
  ∧ save_conversation w
    = (w, Raise (FileNotFoundError
                   (conversation_path (default 1 (conversation_id (session w))))))
  ∧ create_new_conversation w
    = (w, Raise (FileNotFoundError (conversation_path 1))).
Proof.
  assert (disk (run ops (World (Db cur None) s)) = Db cur None) as Hd.
  { unfold run. revert s. induction ops as [|o ops IH]; intros s; [done|].
    simpl. pose proof (step_bad_layout o cur s) as H.
    destruct (step o (World (Db cur None) s)) as [[d s'] r]. simpl in *.
    subst d. apply IH. }
  simpl. destruct (run ops (World (Db cur None) s)) as [d s'].
  simpl in Hd. by subst d.
Qed.

(** ** Switching and deleting *)

(** X12: the outcomes of [switch_conversation].  Without a file for the id
    nothing happens.  A file that is not JSON raises before anything is
    written.  A record with its four keys moves [current.json] to the id
    asked for and loads the record, the session id being the one stored in
    the record, and the script reruns.  A record that lacks a key moves
    [current.json] all the same and raises [KeyError] with the session
    unchanged.  No conversation file is ever changed. *)
Theorem switch_conversation_outcomes (w : world) (cid : Z) :
  match conversation_files (disk w) !! IntStem cid with
  | None => switch_conversation cid w = (w, Ok tt)
  | Some Malformed =>
      switch_conversation cid w
      = (w, Raise (JSONDecodeError (conversation_path cid)))
  | Some (Json (Conversation (Some i) (Some n) (Some p) (Some ms))) =>
      switch_conversation cid w
      = (World (with_pointer cid (disk w)) (loaded i n ms p (session w)), Rerun)
  | Some (Json _) =>
      ∃ key, switch_conversation cid w
             = (World (with_pointer cid (disk w)) (session w),
                Raise (KeyError key))
  end.
Proof.
  destruct w as [d s].
  destruct (conversation_files (disk (World d s)) !! IntStem cid)
    as [[c|]|] eqn:E; simpl in E;
    unfold switch_conversation, conversation_exists, read_conversation,
      write_current, load_conversation_to_state; unfold_M; simpl; rewrite E.
  - rewrite bool_decide_eq_true_2 by eauto. simpl.
    destruct d as [|cur [m|]]; simpl in *; try done.
    rewrite E. unfold getitem; unfold_M.
    destruct c as [[i|] [n|] [p|] [ms|]]; simpl; first [done | by eexists].
  - rewrite bool_decide_eq_true_2 by eauto. simpl.
    destruct d as [|cur [m|]]; simpl in *; try done. by rewrite E.
  - by rewrite bool_decide_eq_false_2 by (by intros [? ?]).
Qed.

Lemma summary_at_its_id (d : fs) (st : stem) (f : file_data conversation)
    (s : summary) :
  store_ok d → conversation_files d !! st = Some f → summary_of f = Some s →
  st = IntStem (summary_id s).
Proof.
  intros [_ Hd] Hst Hs. specialize (Hd _ _ Hst).
  destruct f as [[[i|] [n|] p ms]|]; simpl in *; try done.
  by injection Hs as <-.
Qed.

(** X13: deleting a conversation that is not the active one.  In a store
    whose records lie in the files named after their ids, the call returns
    normally, leaves the session and [current.json] as they were, and
    removes from the list of conversations exactly the entry of that id;
    repeating it changes nothing. *)
Theorem delete_conversation_inactive_listing (w : world) (cid : Z) :
  store_ok (disk w) →
  conversation_id (session w) ≠ Some cid →
  let w' := (delete_conversation cid w).1 in
  (delete_conversation cid w).2 = Ok tt
  ∧ session w' = session w
  ∧ current_file (disk w') = current_file (disk w)
  ∧ (∀ s, s ∈ list_conversations (disk w')
          ↔ s ∈ list_conversations (disk w) ∧ summary_id s ≠ cid)
  ∧ delete_conversation cid w' = (w', Ok tt).
Proof.
  intros Hok Hactive. rewrite (delete_conversation_inactive w cid Hactive).
  simpl. split_and!; try done.
  - by destruct (disk w) as [|cur [m|]].
  - intros s. rewrite !elem_of_list_conversations, conversation_files_unlinked.
    split.
    + intros (st & f & Hst & Hs). apply lookup_delete_Some in Hst as [Hne Hst].
      split; [by eauto|]. intros <-.
      by rewrite (summary_at_its_id _ _ _ _ Hok Hst Hs) in Hne.
    + intros [(st & f & Hst & Hs) Hne]. exists st, f. split; [|done].
      apply lookup_delete_Some. split; [|done]. intros <-.
      pose proof (summary_at_its_id _ _ _ _ Hok Hst Hs) as H.
      injection H as H. done.
  - rewrite delete_conversation_inactive by done. simpl.
    destruct (disk w) as [|cur [m|]]; simpl; try done.
    by rewrite delete_delete_eq.
Qed.

(** X14: a new conversation heads the list.  In a store whose records lie
    in the files named after their ids, after [create_new_conversation] the
    first entry of [list_conversations()] is the new conversation, under
    its default name and with no messages, and the other entries are those
    listed before. *)
Theorem create_new_conversation_listed_first (w : world) :
  store_ok (disk w) →
  let d := disk (create_new_conversation w).1 in
  let new := Summary (next_id (disk w)) (default_name (next_id (disk w))) 0 in
  head (list_conversations d) = Some new
  ∧ ∀ s, s ∈ list_conversations d ↔ s = new ∨ s ∈ list_conversations (disk w).
Proof.
  intros Hok. pose proof Hok as [Hl Hrec].
  pose proof (create_new_conversation_store_ok w Hok) as Hok'.
  rewrite (create_new_conversation_run w Hl) in Hok' |- *. simpl in Hok' |- *.
  set (n := next_id (disk w)) in *.
  set (d := Db _ _) in *.
  set (new := Summary n (default_name n) 0).
  assert (∀ s, s ∈ list_conversations d ↔ s = new ∨ s ∈ list_conversations (disk w))
    as Hmem.
  { intros s. rewrite !elem_of_list_conversations. unfold d. simpl. split.
    - intros (st & f & Hst & Hs).
      apply lookup_insert_Some in Hst as [[<- <-]|[Hne Hst]].
      + left. simpl in Hs. by injection Hs.
      + right. eauto.
    - intros [->|(st & f & Hst & Hs)].
      + exists (IntStem n), (Json (fresh_conversation n)).
        split; [by rewrite lookup_insert_eq|done].
      + exists st, f. split; [|done].
        rewrite lookup_insert_ne; [done|]. intros <-.
        unfold n in Hst. by rewrite next_id_fresh in Hst. }
  split; [|done].
  destruct (list_conversations d) as [|top rest] eqn:Hlist.
  { specialize (Hmem new). rewrite elem_of_nil in Hmem.
    destruct Hmem as [_ []]. by left. }
  simpl. f_equal.
  assert (top ∈ top :: rest) as Htop by apply list_elem_of_here.
  apply Hmem in Htop as [->|Hold]; [done|exfalso].
  assert (summary_id top < n) as Hlt.
  { apply elem_of_list_conversations in Hold as (st & f & Hst & Hs).
    apply next_id_gt, elem_of_conversation_ids.
    rewrite <- (summary_at_its_id _ _ _ _ Hok Hst Hs). eauto. }
  pose proof (sorted_by_id_desc_head _ _ _ Hlist) as [_ Hmax].
  assert (new ∈ top :: rest) as Hnew by (apply Hmem; by left).
  rewrite <- Hlist in Hnew. unfold list_conversations in Hnew.
  rewrite sorted_by_id_desc_perm in Hnew.
  specialize (Hmax _ Hnew). simpl in Hmax. lia.
Qed.

(** X15: the script stops exactly when the API key is missing.  From a
    state between two runs, [main] ends by [st.stop()] if and only if
    [.env] gives no value, or an empty one, for [OPENAI_API_KEY]; it has
    then recorded the exchange rate and its date and touched neither the
    store nor any other session key. *)
Theorem main_stops_without_api_key (env : gmap string string) (h : http)
    (openai : string → request → client_result) (u : user) (a : script_state) :
  in_service (script_world a) →
  ((main env h openai u a).2 = Stopped ↔ api_key_missing env)
  ∧ (api_key_missing env →
     main env h openai u a
     = (ScriptState (script_world a) (uploaded_file_content a)
                    (get_usd_to_pln_rate h).2 (get_usd_to_pln_rate h).1,
        Stopped)).
Proof.
  intros Ha.
  assert (api_key_missing env →
          main env h openai u a
          = (ScriptState (script_world a) (uploaded_file_content a)
                         (get_usd_to_pln_rate h).2 (get_usd_to_pln_rate h).1,
             Stopped)) as Hstop.
  { unfold main, load_environment, set_usd_to_pln.
    destruct (get_usd_to_pln_rate h) as [rate rate_date].
    unfold mbind, Script_bind. by intros [-> | ->]. }
  split; [|done]. split.
  - intros Hr.
    pose proof (triple_main env h openai u (script_world a) Ha a eq_refl) as H.
    destruct (main env h openai u a) as [a' [x| | |e]]; simpl in Hr; try done.
    by destruct H.
  - intros Hmissing. by rewrite (Hstop Hmissing).
Qed.

(** ** Attachments *)

Lemma pdf_text_pages (texts : list string) (text : string) :
  pdf_text (PageText <$> texts) text
  = Some (text +:+ foldr (λ t rest, t +:+ newline +:+ rest) EmptyString texts).
Proof.
  revert text. induction texts as [|t texts IH]; intros text; simpl.
  - f_equal. induction text as [|c text IHt]; [done|].
    change (String c text = String c (text +:+ "")). by rewrite <- IHt.
  - rewrite IH. f_equal.
    assert (∀ x y z : string, (x +:+ y) +:+ z = x +:+ y +:+ z) as Hassoc.
    { intros x y z. induction x as [|c x IHx]; [done|].
      change (String c ((x +:+ y) +:+ z) = String c (x +:+ y +:+ z)).
      by rewrite IHx. }
    by rewrite !Hassoc.
Qed.

Lemma pdf_text_fails (before after : list page) (description text : string) :
  pdf_text (before ++ PageFails description :: after) text = None.
Proof.
  revert text. induction before as [|[t|d] before IH]; intros text; simpl; auto.
Qed.

(** X16: a PDF is extracted entirely or not at all.  When every page gives
    its text, [extract_text_from_pdf] returns the texts of the pages in
    order, each followed by a newline.  When the reader rejects the file or
    a single page raises, it returns the empty text and the text of the
    other pages is dropped. *)
Theorem extract_text_from_pdf_all_or_nothing (name : string)
    (docx : parsed (list string)) (txt : parsed string) :
  (∀ texts,
     extract_text_from_pdf
       (UploadedFile name (Readable (PageText <$> texts)) docx txt)
     = foldr (λ t rest, t +:+ newline +:+ rest) EmptyString texts)
  ∧ (∀ before description after,
       extract_text_from_pdf
         (UploadedFile name
            (Readable (before ++ PageFails description :: after)) docx txt)
       = EmptyString)
  ∧ (∀ description,
       extract_text_from_pdf (UploadedFile name (Unreadable description) docx txt)
       = EmptyString).
Proof.
  unfold extract_text_from_pdf. simpl. split_and!; try done.
  - intros texts. by rewrite pdf_text_pages.
  - intros before description after. by rewrite pdf_text_fails.
Qed.

Lemma str_split_cons (sep : ascii) (s : string) :
  ∃ piece pieces, str_split sep s = piece :: pieces.
Proof.
  induction s as [|c s (piece & pieces & IH)]; simpl; [by eexists _, _|].
  destruct (Ascii.eqb c sep); [by eexists _, _|].
  rewrite IH. by eexists _, _.
Qed.

Lemma str_split_free (sep : ascii) (s : string) :
  char_free sep s → str_split sep s = [s].
Proof.
  induction s as [|c s IH]; simpl; [done|]. intros [Hc Hs].
  rewrite (proj2 (Ascii.eqb_neq c sep)) by done. by rewrite IH.
Qed.

Lemma str_split_app (sep : ascii) (s t : string) :
  str_split sep (s +:+ String sep t) = str_split sep s ++ str_split sep t.
Proof.
  induction s as [|c s IH].
  - change (str_split sep (String sep t) = [EmptyString] ++ str_split sep t).
    simpl. by rewrite Ascii.eqb_refl.
  - change (str_split sep (String c (s +:+ String sep t))
            = str_split sep (String c s) ++ str_split sep t).
    simpl. rewrite IH.
    destruct (str_split_cons sep s) as (piece & pieces & ->).
    by destruct (Ascii.eqb c sep).
Qed.

Lemma last_str_split_app (sep : ascii) (s t : string) :
  last (str_split sep (s +:+ String sep t)) = last (str_split sep t).
Proof.
  rewrite str_split_app.
  destruct (str_split_cons sep t) as (piece & pieces & ->).
  by rewrite last_app_cons.
Qed.

(** X17: the reader of an attachment is chosen by the text after the last
    dot of its name, whatever the case of its letters; a name without a dot
    is its own extension, so that a file named [PDF] is read as a PDF; any
    other extension gives no text. *)
Theorem process_uploaded_file_by_extension (f : uploaded_file)
    (ext : string) :
  char_free "."%char ext →
  (file_name f = ext ∨ ∃ base, file_name f = base +:+ "." +:+ ext) →
  process_uploaded_file (Some f)
  = if bool_decide (str_lower ext = "pdf") then Some (extract_text_from_pdf f)
    else if bool_decide (str_lower ext = "docx") then Some (extract_text_from_docx f)
    else if bool_decide (str_lower ext = "txt") then Some (extract_text_from_txt f)
    else None.
Proof.
  intros Hext Hname. unfold process_uploaded_file.
  assert (file_extension (file_name f) = str_lower ext) as ->; [|done].
  unfold file_extension. destruct Hname as [->|[base ->]].
  - by rewrite str_split_free.
  - change (base +:+ "." +:+ ext) with (base +:+ String "."%char ext).
    by rewrite last_str_split_app, str_split_free.
Qed.

(** ** Token total *)

Lemma token_total_from (ms : list message) (start : Z) :
  fold_left (λ total m,
               total + default 0 (total_tokens (default empty_usage (msg_usage m))))
            ms start
  = start + token_total ms.
Proof.
  unfold token_total. revert start.
  induction ms as [|m ms IH]; intros start; simpl; [lia|].
  rewrite IH, (IH (0 + _)). lia.
Qed.

(** X18: the token total of the sidebar is the exact sum of the
    [total_tokens] of the messages, a message counting for the
    [total_tokens] of its usage and for 0 when it has no usage or its usage
    lacks the key (the empty usage of a failed reply); so it adds up over
    concatenation and does not depend on the order of the messages. *)
Theorem token_total_order (ms ms' : list message) :
  ms ≡ₚ ms' →
  token_total ms
  = foldr Z.add 0
          ((λ m, match msg_usage m with
                 | Some (Usage _ _ (Some n) _) => n
                 | _ => 0
                 end) <$> ms)
  ∧ (∀ r c prompt completion n seconds,
       token_total
         (ms ++ [Message r c (Some (Usage prompt completion (Some n) seconds))])
       = token_total ms + n)
  ∧ token_total ms = token_total ms'
  ∧ token_total (ms ++ ms') = token_total ms + token_total ms'
  ∧ ∀ r c, token_total (ms ++ [Message r c None]) = token_total ms
           ∧ token_total (ms ++ [Message r c (Some empty_usage)])
             = token_total ms.
Proof.
  intros Hperm.
  assert (∀ l l', token_total (l ++ l') = token_total l + token_total l')
    as Happ.
  { intros l l'. unfold token_total at 1. rewrite fold_left_app.
    fold (token_total l). apply token_total_from. }
  assert (∀ m l, token_total (m :: l) = token_total [m] + token_total l)
    as Hcons by (intros m l; apply (Happ [m] l)).
  split_and!.
  - clear Hperm. induction ms as [|m ms IH]; [done|].
    rewrite Hcons, IH. simpl. f_equal. unfold token_total. simpl.
    by destruct (msg_usage m) as [[? ? [n|] ?]|].
  - intros r c prompt completion n seconds. rewrite Happ. f_equal.
  - induction Hperm as [|m l l' _ IH|m m' l|l l' l'' _ IH _ IH'].
    + done.
    + by rewrite (Hcons m l), (Hcons m l'), IH.
    + rewrite (Hcons m' (m :: l)), (Hcons m l), (Hcons m (m' :: l)),
        (Hcons m' l). lia.
    + by rewrite IH.
  - apply Happ.
  - intros r c. rewrite !Happ. unfold token_total. simpl. lia.
Qed.

(** ** The uploaded document *)

Lemma keeps_uploaded_ret {A} (P : option string → Prop) (x : A) :
  keeps_uploaded P (mret x).
Proof. by intros a Ha. Qed.

Lemma keeps_uploaded_bind {A B} (P : option string → Prop) (m : Script A)
    (f : A → Script B) :
  keeps_uploaded P m → (∀ x, keeps_uploaded P (f x)) →
  keeps_uploaded P (m ≫= f).
Proof.
  intros Hm Hf a Ha. specialize (Hm a Ha). unfold mbind, Script_bind.
  destruct (m a) as [a' [x| | |e]]; try done. by apply Hf.
Qed.

Lemma keeps_uploaded_lift {A} (P : option string → Prop) (m : M A) :
  keeps_uploaded P (lift m).
Proof. intros a Ha. unfold lift. by destruct (m (script_world a)). Qed.

Lemma keeps_uploaded_reads {A} (P : option string → Prop)
    (f : script_state → A) :
  keeps_uploaded P (reads f).
Proof. by intros a Ha. Qed.

Lemma keeps_uploaded_fail {A} (P : option string → Prop) (e : error) :
  keeps_uploaded P (fail e : Script A).
Proof. by intros a Ha. Qed.

Ltac keeps_uploaded_step :=
  first
    [ apply keeps_uploaded_lift
    | apply keeps_uploaded_ret
    | apply keeps_uploaded_reads
    | apply keeps_uploaded_fail
    | apply keeps_uploaded_bind; [|intros ?]
    | match goal with
      | |- keeps_uploaded _ (if ?b then _ else _) => destruct b
      | |- keeps_uploaded _ (match ?x with _ => _ end) => destruct x
      end ].

Lemma keeps_uploaded_render_sidebar (P : option string → Prop) (u : user) :
  keeps_uploaded P (render_sidebar u).
Proof. unfold render_sidebar. repeat keeps_uploaded_step. Qed.

Lemma keeps_uploaded_render_conversation_manager (P : option string → Prop)
    (u : user) :
  keeps_uploaded P (render_conversation_manager u).
Proof. unfold render_conversation_manager. repeat keeps_uploaded_step. Qed.

Lemma keeps_uploaded_chat_turn (P : option string → Prop)
    (client : request → client_result) (text : string) :
  keeps_uploaded P (chat_turn client text).
Proof. unfold chat_turn. repeat keeps_uploaded_step. Qed.

Lemma keeps_uploaded_render_main_chat (P : option string → Prop)
    (client : request → client_result) (u : user) :
  (∀ c t, process_uploaded_file (file_uploader u) = Some (String c t) →
          P (Some (String c t))) →
  keeps_uploaded P (render_main_chat client u).
Proof.
  intros Hupload. unfold render_main_chat.
  apply keeps_uploaded_bind; [apply keeps_uploaded_lift|]. intros shown.
  apply keeps_uploaded_bind; [repeat keeps_uploaded_step|]. intros ?.
  apply keeps_uploaded_bind.
  - destruct (file_uploader u) as [f|] eqn:Hf; [|apply keeps_uploaded_ret].
    destruct (process_uploaded_file (Some f)) as [[|c t]|] eqn:Hp;
      try apply keeps_uploaded_ret.
    intros a Ha. simpl. by apply Hupload.
  - intros ?. destruct (chat_input u) as [[|c t]|];
      try apply keeps_uploaded_ret.
    apply keeps_uploaded_chat_turn.
Qed.

Lemma keeps_uploaded_main (P : option string → Prop)
    (env : gmap string string) (h : http)
    (openai : string → request → client_result) (u : user) :
  (∀ c t, process_uploaded_file (file_uploader u) = Some (String c t) →
          P (Some (String c t))) →
  keeps_uploaded P (main env h openai u).
Proof.
  intros Hupload. unfold main.
  destruct (get_usd_to_pln_rate h) as [rate rate_date].
  apply keeps_uploaded_bind; [by intros a Ha|]. intros ?.
  apply keeps_uploaded_bind.
  { unfold load_environment. destruct (env !! _) as [[|c t]|]; by intros a Ha. }
  intros env'.
  apply keeps_uploaded_bind; [apply keeps_uploaded_lift|]. intros api_key.
  apply keeps_uploaded_bind; [apply keeps_uploaded_lift|]. intros i.
  apply keeps_uploaded_bind; [repeat keeps_uploaded_step|]. intros ?.
  apply keeps_uploaded_bind; [apply keeps_uploaded_render_sidebar|]. intros ?.
  apply keeps_uploaded_bind; [apply keeps_uploaded_render_conversation_manager|].
  intros ?. by apply keeps_uploaded_render_main_chat.
Qed.

(** X19: an uploaded document stays.  Once the session holds the text of
    an uploaded document, no script run removes it: after [main] the
    session still holds a document, and it holds the same one when the
    uploader is empty in that run or its file gives no text (an unsupported
    format, a file the reader rejects, an empty text). *)
Theorem uploaded_document_stays (env : gmap string string) (h : http)
    (openai : string → request → client_result) (u : user) (a : script_state)
    (text : string) :
  uploaded_file_content a = Some text →
  is_Some (uploaded_file_content (main env h openai u a).1)
  ∧ (process_uploaded_file (file_uploader u) = None
     ∨ process_uploaded_file (file_uploader u) = Some EmptyString →
     uploaded_file_content (main env h openai u a).1 = Some text).
Proof.
  intros Ha. split.
  - apply (keeps_uploaded_main is_Some); [by eauto|]. rewrite Ha. eauto.
  - intros Hnone.
    apply (keeps_uploaded_main (λ c, c = Some text)); [|done].
    intros c t Hp. rewrite Hp in Hnone. by destruct Hnone.
Qed.

(** ** A run without user action *)

Lemma render_sidebar_run (u : user) (a : script_state) :
  let s := session (script_world a) in
  model_selectbox u (MODEL_PRICING.*1) ∈ MODEL_PRICING.*1 →
  ∃ view,
    render_sidebar u a
    = (with_world
         (World (disk (script_world a))
                (SessionState (conversation_id s) (conversation_name s)
                   (messages s)
                   (Some (text_area u (default DEFAULT_PERSONALITY
                                               (chatbot_personality s))))
                   (Some (model_selectbox u (MODEL_PRICING.*1)))
                   (error_message s)))
         a,
       Done view).
Proof.
  intros s Hmodel. destruct a as [[d s0] content date rate]. simpl in s.
  subst s. unfold render_sidebar, lift, reads, set_chatbot_personality,
    set_selected_model, getitem; unfold_M.
  unfold mbind, Script_bind, mret, Script_ret.
  destruct (_ !! model_selectbox u _) as [pricing|] eqn:E.
  - simpl. destruct (calculate_conversation_cost _ pricing). by eexists.
  - by apply not_elem_of_list_to_map in E.
Qed.

Lemma script_bind_done {A B} (m : Script A) (f : A → Script B)
    (a a' : script_state) (x : A) :
  m a = (a', Done x) → (m ≫= f) a = f x a'.
Proof. intros H. unfold mbind, Script_bind. by rewrite H. Qed.

(** X7: a run in which the user only looks writes nothing.  With an API
    key, a loaded conversation that is among the ten listed, and a user who
    presses no button, keeps the name, leaves the list alone, uploads
    nothing and sends nothing, [main] returns normally and leaves the disk
    as it was; the only session keys it sets are the model and the
    personality, to what the sidebar returns.  A personality edited in the
    sidebar is thus held by the session only: no record on disk carries it
    before a later call of [save_conversation]. *)
Theorem main_idle_run (env : gmap string string) (h : http)
    (openai : string → request → client_result) (u : user) (a : script_state)
    (c : ascii) (key name : string) (current_id : Z) :
  let s := session (script_world a) in
  env !! "OPENAI_API_KEY" = Some (String c key) →
  conversation_id s = Some current_id →
  conversation_name s = Some name →
  current_id
    ∈ summary_id <$> take 10 (list_conversations (disk (script_world a))) →
  model_selectbox u (MODEL_PRICING.*1) ∈ MODEL_PRICING.*1 →
  no_action u →
  close_error_button u = false →
  file_uploader u = None →
  chat_input u = None →
  main env h openai u a
  = (ScriptState
       (World (disk (script_world a))
              (SessionState (conversation_id s) (conversation_name s)
                 (messages s)
                 (Some (text_area u (default DEFAULT_PERSONALITY
                                             (chatbot_personality s))))
                 (Some (model_selectbox u (MODEL_PRICING.*1)))
                 (error_message s)))
       (uploaded_file_content a)
       (get_usd_to_pln_rate h).2 (get_usd_to_pln_rate h).1,
     Done tt).
Proof.
  intros s Hkey Hid Hname Hin Hmodel Hu Hclose Hfile Hinput.
  unfold main. destruct (get_usd_to_pln_rate h) as [rate rate_date].
  set (a1 := ScriptState (script_world a) (uploaded_file_content a)
                         rate_date rate).
  rewrite (script_bind_done _ _ a a1 tt) by done.
  rewrite (script_bind_done _ _ a1 a1 env)
    by (unfold load_environment; by rewrite Hkey).
  rewrite (script_bind_done _ _ a1 a1 (String c key))
    by (unfold lift; by rewrite Hkey).
  rewrite (script_bind_done _ _ a1 a1 (Some current_id))
    by (unfold lift, gets; simpl; by rewrite <- Hid).
  rewrite (script_bind_done _ _ a1 a1 tt) by done.
  destruct (render_sidebar_run u a1 Hmodel) as [view Hside].
  rewrite (script_bind_done _ _ _ _ _ Hside). simpl script_world. fold s.
  set (a2 := with_world _ a1).
  rewrite (script_bind_done _ _ a2 a2 tt).
  - unfold render_main_chat, lift, gets.
    unfold mbind, Script_bind, mret, Script_ret. simpl.
    rewrite Hclose, Hfile, Hinput. by destruct (error_message s).
  - apply (render_conversation_manager_idle u a2 name); try done.
    simpl. fold s. by rewrite Hid.
Qed.

(** ** Exchange rate *)

(** X20: a dated rate is a rate of the service.  When
    [get_usd_to_pln_rate] returns a date, the answer of the service had
    status 200 and a non-empty list of rates, and the rate and the date
    returned are those of its first entry; an answer with another status
    gives the default [(3.6, None)] whatever its body holds. *)
Theorem get_usd_to_pln_rate_dated (h : http) (date : string) :
  (get_usd_to_pln_rate h).2 = Some date →
  (∃ r rest,
     h = HttpResponse 200 (NbpData (Some (r :: rest)))
     ∧ mid r = Some (get_usd_to_pln_rate h).1
     ∧ effectiveDate r = Some date)
  ∧ ∀ status body,
      status ≠ 200 →
      get_usd_to_pln_rate (HttpResponse status body) = (3.6%float, None).
Proof.
  intros Hdate. split.
  - unfold get_usd_to_pln_rate, nbp_rate_of in *.
    destruct h as [description|status [|[[|r rest]|]]]; simpl in *; try done;
      case_bool_decide as Hstatus; simpl in *; try done.
    destruct (mid r) as [rate|] eqn:Hmid; simpl in *; [|done].
    exists r, rest. split_and!; [|done..].
    f_equal. by destruct (decide (status = 200)).
  - intros status body Hstatus. unfold get_usd_to_pln_rate, nbp_rate_of.
    by rewrite bool_decide_eq_true_2.
Qed.

(** ** Instances *)

Lemma default_boxes_offer_options (u : user) :
  model_selectbox u = (λ options, default EmptyString (head options)) →
  conversation_selectbox u = (λ options i, default EmptyString (options !! i)) →
  offers_options u.
Proof.
  intros Hmodel Hbox. split.
  - rewrite Hmodel. simpl. apply list_elem_of_here.
  - intros options i Hi. rewrite Hbox.
    destruct (lookup_lt_is_Some_2 options i Hi) as [label Hlabel].
    rewrite Hlabel. simpl. by eapply list_elem_of_lookup_2.
Qed.

Lemma default_widgets_no_action (u : user) :
  text_input u = (λ value, value) →
  new_button u = false → delete_button u = false →
  conversation_selectbox u = (λ options i, default EmptyString (options !! i)) →
  no_action u.
Proof.
  intros Hinput Hnew Hdelete Hbox. split_and!; try done.
  - intros value. by rewrite Hinput.
  - intros options i label Hlabel. by rewrite Hbox, Hlabel.
Qed.

Lemma main_idle_run_witness :
  main env_with_key nbp_answer (λ _, counting_client) editing_user ready_state
  = (ScriptState
       (World (disk ready_world)
              (SessionState (Some 1) (Some "Pierwsza konwersacja") (Some [])
                            (Some "Odpowiadaj krótko.") (Some "gpt-5-nano") None))
       None (Some "2025-07-04") 3.6543%float,
     Done tt).
Proof.
  apply (main_idle_run env_with_key nbp_answer (λ _, counting_client)
           editing_user ready_state "s" "k-test" "Pierwsza konwersacja" 1).
  - by vm_compute.
  - reflexivity.
  - reflexivity.
  - by apply (bool_decide_unpack _); vm_compute.
  - by apply (bool_decide_unpack _); vm_compute.
  - by apply default_widgets_no_action.
  - reflexivity.
  - reflexivity.
  - reflexivity.
Defined.

Lemma main_does_not_raise_witness :
  in_service (script_world ready_state)
  ∧ (((main env_with_key nbp_answer (λ _, counting_client) asking_user
            ready_state).2 = Stopped
      ∧ script_world (main env_with_key nbp_answer (λ _, counting_client)
                           asking_user ready_state).1
        = script_world ready_state)
     ∨ (((main env_with_key nbp_answer (λ _, counting_client) asking_user
               ready_state).2 = Done tt
         ∨ (main env_with_key nbp_answer (λ _, counting_client) asking_user
                 ready_state).2 = Reran)
        ∧ settled (script_world
                     (main env_with_key nbp_answer (λ _, counting_client)
                           asking_user ready_state).1))).
Proof.
  assert (in_service (script_world ready_state)) as H
    by (by apply (bool_decide_unpack _); vm_compute).
  split; [exact H|].
  apply main_does_not_raise; [exact H|].
  by apply default_boxes_offer_options.
Defined.

Lemma chat_turn_request_witness :
  selected_model (session ready_world) = Some "gpt-5-nano"
  ∧ ∃ w',
      chat_turn counting_client "Ahoj" ready_state
      = (ScriptState w' None None 3.6%float, Reran)
      ∧ messages (session w')
        = Some [Message "user" "Ahoj" None;
                Message "assistant" "3"
                        (Some (Usage (Some 30) (Some 1) (Some 31)
                                     (Some 0.5%float)))].
Proof.
  split; [reflexivity|]. eexists. split.
  - exact (chat_turn_request counting_client "Ahoj" None None 3.6%float
             (Some (Json (Pointer (Some 1))))
             {[ IntStem 1 := Json first_conversation ]}
             (session ready_world) "gpt-5-nano" eq_refl).
  - vm_compute. reflexivity.
Defined.


Lemma render_conversation_manager_renames_witness :
  conversation_files
    (disk (script_world (render_conversation_manager renaming_user pirate_state).1))
    !! IntStem 1
  = Some (Json (Conversation (Some 1) (Some "Korsarze")
                             (Some "Odpowiadaj jak pirat.")
                             (Some [Message "user" "Ahoj" None]))).
Proof.
  apply (render_conversation_manager_renames renaming_user pirate_state 1
           "Korsarze").
  - by apply (bool_decide_unpack _); vm_compute.
  - reflexivity.
  - reflexivity.
  - discriminate.
  - reflexivity.
Defined.

Lemma save_then_load_current_conversation_witness :
  settled saved_world
  ∧ load_current_conversation
      (World (disk (save_conversation saved_world).1) empty_session)
    = (World (disk (save_conversation saved_world).1)
             (loaded 1 "Nowa nazwa"
                     [Message "user" "Ahoj" None;
                      Message "assistant" "Ahoj!" (Some empty_usage)]
                     DEFAULT_PERSONALITY empty_session),
       Ok tt).
Proof.
  assert (settled saved_world) as H
    by (by apply (bool_decide_unpack _); vm_compute).
  split; [exact H|].
  exact (save_then_load_current_conversation saved_world empty_session H).
Defined.

Lemma delete_conversation_inactive_listing_witness :
  store_ok (disk three_conversations)
  ∧ (delete_conversation 3 three_conversations).2 = Ok tt
  ∧ session (delete_conversation 3 three_conversations).1
    = session three_conversations
  ∧ current_file (disk (delete_conversation 3 three_conversations).1)
    = current_file (disk three_conversations)
  ∧ (∀ s, s ∈ list_conversations
                (disk (delete_conversation 3 three_conversations).1)
          ↔ s ∈ list_conversations (disk three_conversations)
            ∧ summary_id s ≠ 3)
  ∧ delete_conversation 3 (delete_conversation 3 three_conversations).1
    = ((delete_conversation 3 three_conversations).1, Ok tt).
Proof.
  assert (store_ok (disk three_conversations)) as H
    by (by apply (bool_decide_unpack _); vm_compute).
  split; [exact H|].
  apply (delete_conversation_inactive_listing three_conversations 3 H).
  discriminate.
Defined.

Lemma create_new_conversation_listed_first_witness :
  store_ok (disk three_conversations)
  ∧ head (list_conversations (disk (create_new_conversation three_conversations).1))
    = Some (Summary (next_id (disk three_conversations))
                    (default_name (next_id (disk three_conversations))) 0)
  ∧ ∀ s, s ∈ list_conversations
               (disk (create_new_conversation three_conversations).1)
         ↔ s = Summary (next_id (disk three_conversations))
                       (default_name (next_id (disk three_conversations))) 0
           ∨ s ∈ list_conversations (disk three_conversations).
Proof.
  assert (store_ok (disk three_conversations)) as H
    by (by apply (bool_decide_unpack _); vm_compute).
  split; [exact H|].
  exact (create_new_conversation_listed_first three_conversations H).
Defined.

Lemma main_stops_without_api_key_witness :
  api_key_missing ∅
  ∧ main ∅ nbp_answer (λ _, counting_client) asking_user ready_state
    = (ScriptState ready_world None (Some "2025-07-04") 3.6543%float, Stopped).
Proof.
  assert (api_key_missing ∅) as Hmissing by (by left).
  split; [exact Hmissing|].
  assert (in_service (script_world ready_state)) as H
    by (by apply (bool_decide_unpack _); vm_compute).
  exact (proj2 (main_stops_without_api_key ∅ nbp_answer (λ _, counting_client)
                  asking_user ready_state H) Hmissing).
Defined.

Lemma process_uploaded_file_by_extension_witness :
  process_uploaded_file (Some report_pdf)
  = Some (extract_text_from_pdf report_pdf).
Proof.
  apply (process_uploaded_file_by_extension report_pdf "PDF").
  - by simpl.
  - right. by exists "raport.2025".
Defined.

Lemma token_total_order_witness :
  token_total [reply_a; reply_b] = 8
  ∧ token_total [reply_a; reply_b]
    = foldr Z.add 0
            ((λ m, match msg_usage m with
                   | Some (Usage _ _ (Some n) _) => n
                   | _ => 0
                   end) <$> [reply_a; reply_b])
  ∧ (∀ r c prompt completion n seconds,
       token_total
         ([reply_a; reply_b]
          ++ [Message r c (Some (Usage prompt completion (Some n) seconds))])
       = token_total [reply_a; reply_b] + n)
  ∧ token_total [reply_a; reply_b] = token_total [reply_b; reply_a]
  ∧ token_total ([reply_a; reply_b] ++ [reply_b; reply_a])
    = token_total [reply_a; reply_b] + token_total [reply_b; reply_a]
  ∧ ∀ r c,
      token_total ([reply_a; reply_b] ++ [Message r c None])
      = token_total [reply_a; reply_b]
      ∧ token_total ([reply_a; reply_b] ++ [Message r c (Some empty_usage)])
        = token_total [reply_a; reply_b].
Proof.
  split; [reflexivity|].
  apply (token_total_order [reply_a; reply_b] [reply_b; reply_a]).
  apply perm_swap.
Defined.

Lemma uploaded_document_stays_witness :
  is_Some (uploaded_file_content
             (main env_with_key nbp_answer (λ _, counting_client) asking_user
                   state_with_document).1)
  ∧ (process_uploaded_file (file_uploader asking_user) = None
     ∨ process_uploaded_file (file_uploader asking_user) = Some EmptyString →
     uploaded_file_content
       (main env_with_key nbp_answer (λ _, counting_client) asking_user
             state_with_document).1
     = Some "Regulamin").
Proof.
  exact (uploaded_document_stays env_with_key nbp_answer (λ _, counting_client)
           asking_user state_with_document "Regulamin" eq_refl).
Defined.

Lemma get_usd_to_pln_rate_dated_witness :
  (get_usd_to_pln_rate nbp_answer).2 = Some "2025-07-04"
  ∧ (∃ r rest,
       nbp_answer = HttpResponse 200 (NbpData (Some (r :: rest)))
       ∧ mid r = Some (get_usd_to_pln_rate nbp_answer).1
       ∧ effectiveDate r = Some "2025-07-04")
  ∧ ∀ status body,
      status ≠ 200 →
      get_usd_to_pln_rate (HttpResponse status body) = (3.6%float, None).
Proof.
  split; [reflexivity|].
  exact (get_usd_to_pln_rate_dated nbp_answer "2025-07-04" eq_refl).
Defined.
